(** * PushyServices: the Podio push relay, embedded and checked against its spec

    The repository holds several generations of [server.js]:

    - [src/server.js], first document (lines 1-219): webhook, Faye client
      factory [createFayeClient], registry [subs], inline /subscribe and
      /unsubscribe routes.  Embedded as [ServerJs].
    - [src/unnamed/part_000], first document (lines 1-227): registry
      [active], [subscribeToChannel], [unsubscribeFromChannel], /health.
      Embedded as [PushService].
    - the webhook-only listeners ([src/server.js] lines 220-343,
      [src/unnamed/part_000] lines 228-345 and 346-469), which share one
      handler and one verifier up to log texts.  Embedded as [Listener].
      The /subscribe stub of the last one (lines 474-499) keeps no state and
      is left out.

    JavaScript values are embedded as the inductive [JS.value]; handlers are
    written in a small monad threading the registry, recording the calls made
    to the outside (HTTP posts, bus clients, the crypto module) and carrying
    thrown exceptions.  Console logging is left out. *)

From stdpp Require Import gmap strings list fin_maps pretty.

#[local] Set Warnings "-register-all".
Open Scope string_scope.

(** ** JavaScript values *)

Module JS.

Inductive value : Type :=
  | Undefined
  | Null
  | Bool (b : bool)
  | Num (n : Z)
  | Str (s : string)
  | Obj (fields : list (string * value))
  | Arr (items : list value).

(** ToBoolean.  [Num n] stands for an integer that JavaScript prints in plain
    decimal notation, so [0] is the only falsy number. *)
Definition truthy (v : value) : bool :=
  match v with
  | Undefined | Null => false
  | Bool b => b
  | Num n => negb (n =? 0)%Z
  | Str s => negb (String.eqb s "")
  | Obj _ | Arr _ => true
  end.

Fixpoint assoc (k : string) (fields : list (string * value)) : value :=
  match fields with
  | [] => Undefined
  | (k', v) :: rest => if String.eqb k k' then v else assoc k rest
  end.

(** [v.k] for a value that is neither [null] nor [undefined], and a key that
    is no index and no built-in property: own properties of objects, nothing
    on primitives and arrays. *)
Definition get (v : value) (k : string) : value :=
  match v with
  | Obj fields => assoc k fields
  | _ => Undefined
  end.

(** [v === "lit"] *)
Definition is_str (v : value) (lit : string) : bool :=
  match v with
  | Str s => String.eqb s lit
  | _ => false
  end.

(** [a || b] *)
Definition or_else (a b : value) : value := if truthy a then a else b.

(** [a ?? b] *)
Definition coalesce (a b : value) : value :=
  match a with
  | Undefined | Null => b
  | _ => a
  end.

(** [String(v)] *)
Fixpoint String (v : value) : string :=
  match v with
  | Undefined => "undefined"
  | Null => "null"
  | Bool true => "true"
  | Bool false => "false"
  | Num n => pretty n
  | Str s => s
  | Obj _ => "[object Object]"
  | Arr items =>
      let item x := match x with Undefined | Null => "" | _ => String x end in
      (fix join (l : list value) : string :=
         match l with
         | [] => ""
         | [x] => item x
         | x :: rest => item x +:+ "," +:+ join rest
         end) items
  end.

End JS.

(** ** Bayeux messages, as the Faye client hands them to an extension *)

Module Bayeux.

Record message : Type := {
  channel : string;
  subscription : option string;
  ext : option (gmap string JS.value);
  fields : list (string * JS.value)    (* clientId, id, data, ... *)
}.

Definition set_ext (m : message) (e : gmap string JS.value) : message :=
  {| channel := channel m; subscription := subscription m;
     ext := Some e; fields := fields m |}.

End Bayeux.

(** ** Calls to the outside, exceptions, and the handler monad *)

Inductive call : Type :=
  | HttpPost (url : string) (payload : JS.value) (delivered : bool)
  | Hmac (key data : string)
  | NewClient (handle : nat) (endpoint : string)
  | BusSubscribe (handle : nat) (chan : string)
  | BusCancel (handle : nat)
  | BusDisconnect (handle : nat).

Inductive completion (A : Type) : Type :=
  | Normal (a : A)
  | Thrown (msg : string).
Arguments Normal {A} a.
Arguments Thrown {A} msg.

Definition M (S A : Type) : Type := S -> S * list call * completion A.

Section Monad.
Context {S : Type}.

Definition ret {A} (a : A) : M S A := fun s => (s, [], Normal a).

Definition bind {A B} (c : M S A) (k : A -> M S B) : M S B :=
  fun s =>
    match c s with
    | (s1, t1, Normal a) =>
        match k a s1 with
        | (s2, t2, r) => (s2, (t1 ++ t2)%list, r)
        end
    | (s1, t1, Thrown e) => (s1, t1, Thrown e)
    end.

Definition throw {A} (e : string) : M S A := fun s => (s, [], Thrown e).

Definition emit (c : call) : M S unit := fun s => (s, [c], Normal tt).

Definition read : M S S := fun s => (s, [], Normal s).

Definition write (s' : S) : M S unit := fun _ => (s', [], Normal tt).

(** [try { c } catch (e) { h e }]: what [c] did before throwing stays done. *)
Definition try_catch {A} (c : M S A) (h : string -> M S A) : M S A :=
  fun s =>
    match c s with
    | (s1, t1, Normal a) => (s1, t1, Normal a)
    | (s1, t1, Thrown e) =>
        match h e s1 with
        | (s2, t2, r) => (s2, (t1 ++ t2)%list, r)
        end
    end.
End Monad.

Notation "'let*' x ':=' c 'in' k" := (bind c (fun x => k))
  (at level 10, x name, c at level 100, k at level 200).
Notation "c ';;' k" := (bind c (fun _ => k))
  (at level 100, k at level 200, right associativity).

Definition final_state {S A} (r : S * list call * completion A) : S := r.1.1.
Definition calls {S A} (r : S * list call * completion A) : list call := r.1.2.
Definition outcome {S A} (r : S * list call * completion A) : completion A := r.2.

(** A call that posts to a forward target. *)
Definition is_post (c : call) : bool :=
  match c with HttpPost _ _ _ => true | _ => false end.

(** ** What the process is started with, and what the outside answers *)

Record env : Type := {
  PODIO_PUSH_SECRET : option string;
  APP_BASE_URL : option string;
  AVA_TOPIC_URL : option string;
  DEBUG_WEBHOOK_URL : option string;
  PODIO_COMETD_URL : option string;
  NODE_ENV : option string
}.

Record world : Type := {
  (** [crypto]: hex digest of HMAC-SHA1 with a key, over a string *)
  hmac_sha1_hex : string -> string -> string;
  (** [JSON.stringify] on a value other than [undefined] *)
  stringify : JS.value -> string;
  (** whether [axios.post(url, payload)] resolves *)
  http_ok : string -> JS.value -> bool;
  (** [new Date().toISOString()] *)
  now : string;
  (** the exception message, if [subscription.cancel()] throws *)
  cancel_error : nat -> option string;
  (** the exception message, if [client.disconnect()] throws *)
  disconnect_error : nat -> option string;
  (** milliseconds until the bus confirms the subscription of a client;
      [None] when it never does *)
  confirmed_after : nat -> option N
}.

(** An HTTP response: [res.status(code).send(text)] carries [JS.Str text],
    [res.json(v)] carries [v] (status 200 unless set). *)
Record response : Type := { status : nat; body : JS.value }.

Definition send (code : nat) (text : string) : response :=
  {| status := code; body := JS.Str text |}.
Definition json (code : nat) (v : JS.value) : response :=
  {| status := code; body := v |}.

(** Env variables and headers are strings when set; [!x] holds when unset or
    empty. *)
Definition unset (x : option string) : bool :=
  match x with
  | None => true
  | Some s => String.eqb s ""
  end.

Definition js_opt (x : option string) : JS.value :=
  match x with None => JS.Undefined | Some s => JS.Str s end.

Section Crypto.
Context {S : Type} (w : world).

(** [JSON.stringify(v)]: [undefined] for [undefined]. *)
Definition JSON_stringify (v : JS.value) : option string :=
  match v with
  | JS.Undefined => None
  | _ => Some (stringify w v)
  end.

(** [crypto.createHmac("sha1", key).update(data).digest("hex")].  Node
    throws a TypeError (ERR_INVALID_ARG_TYPE) for a key that is
    [undefined], and for data that is [undefined]. *)
Definition createHmac_sha1_hex (key data : option string) : M S string :=
  match key with
  | None => throw "TypeError: the key argument must be of type string"
  | Some k =>
      match data with
      | None => throw "TypeError: the data argument must be of type string"
      | Some d => emit (Hmac k d) ;; ret (hmac_sha1_hex w k d)
      end
  end.
End Crypto.

(** Body of POST /subscribe, [{ push: { channel, signature, timestamp,
    expires_in } }].  A channel is a string (spec, section 3); a field that is
    absent is [None], respectively [JS.Undefined]. *)
Record push : Type := {
  channel : option string;
  signature : JS.value;
  timestamp : JS.value;
  expires_in : JS.value
}.

Section Axios.
Context {S : Type} (w : world).

(** [await axios.post(url, payload, ...)]: rejects without sending when the
    url is [undefined], and when the request fails. *)
Definition axios_post (url : option string) (payload : JS.value) : M S unit :=
  match url with
  | None => throw "Invalid URL"
  | Some u =>
      emit (HttpPost u payload (http_ok w u payload)) ;;
      if http_ok w u payload then ret tt else throw "Request failed"
  end.
End Axios.

(** ** [src/server.js], lines 1-219 *)

Module ServerJs.

(** A registry entry [{ client, subscription, createdAt }]; the subscription
    object belongs to its client and goes by the same handle. *)
Record entry : Type := { client : nat; createdAt : string }.

(** [subs], and the number of Faye clients constructed so far (the handle of
    the next one). *)
Record state : Type := { subs : gmap string entry; clients : nat }.

Definition set_subs (st : state) (m : gmap string entry) : state :=
  {| subs := m; clients := clients st |}.

Section Handlers.
Context (w : world) (cfg : env).

Definition forwardToAVA {S} (payload : JS.value) : M S unit :=
  if unset (AVA_TOPIC_URL cfg) then ret tt
  else try_catch (axios_post w (AVA_TOPIC_URL cfg) payload) (fun _ => ret tt).

Definition forwardToDebug {S} (payload : JS.value) : M S unit :=
  if unset (DEBUG_WEBHOOK_URL cfg) then ret tt
  else try_catch (axios_post w (DEBUG_WEBHOOK_URL cfg) payload) (fun _ => ret tt).

Definition validatePodioSignature {S} (body : JS.value) (signature : option string)
  : M S bool :=
  let* computed :=
    createHmac_sha1_hex w (Some (default "" (PODIO_PUSH_SECRET cfg)))
                        (JSON_stringify w body) in
  ret (match signature with
       | Some s => String.eqb computed s
       | None => false
       end).

(** The [outgoing] extension that [createFayeClient] attaches. *)
Definition outgoing (channel : string) (signature timestamp : JS.value)
    (message : Bayeux.message) : Bayeux.message :=
  if String.eqb (Bayeux.channel message) "/meta/subscribe" then
    let ext := default ∅ (Bayeux.ext message) in
    Bayeux.set_ext message
      (<["private_pub_timestamp" := JS.Str (JS.String timestamp)]>
         (<["private_pub_signature" := signature]> ext))
  else message.

Definition endpoint : string := "https://push.podio.com/faye".

Definition createFayeClient (channel : string) (signature timestamp : JS.value)
  : M state nat :=
  let* st := read in
  let handle := clients st in
  write {| subs := subs st; clients := S handle |} ;;
  emit (NewClient handle endpoint) ;;
  ret handle.

(** GET /health *)
Definition get_health : M state response := ret (send 200 "OK").

(** POST /podio/push *)
Definition post_podio_push (req_body : JS.value) (x_podio_signature : option string)
  : M state response :=
  let body := JS.or_else req_body (JS.Obj []) in
  if JS.is_str (JS.get body "type") "subscription_verification"
     && JS.truthy (JS.get body "challenge")
  then
    ret (json 200 (JS.Obj
           [("status", JS.Str "ok");
            ("subscribe_url",
             JS.Str ((if unset (APP_BASE_URL cfg) then ""
                      else default "" (APP_BASE_URL cfg)) +:+ "/podio/push"));
            ("challenge", JS.get body "challenge")]))
  else
    let signature := x_podio_signature in
    if unset signature then ret (send 401 "Invalid signature")
    else
      let* valid := validatePodioSignature body signature in
      if negb valid then ret (send 401 "Invalid signature")
      else
        forwardToAVA body ;;
        forwardToDebug body ;;
        ret (send 200 "OK").

(** The callback given to [client.subscribe(channel, ...)]. *)
Definition on_message (channel : string) (message : JS.value) : M state unit :=
  forwardToAVA (JS.Obj [("channel", JS.Str channel); ("message", message);
                        ("received_at", JS.Str (now w))]) ;;
  forwardToDebug (JS.Obj [("channel", JS.Str channel); ("message", message);
                          ("received_at", JS.Str (now w))]).

(** The handlers given to [subscription.then(...)], run when the bus has
    confirmed or refused the subscription: both only log. *)
Definition on_settled (channel : string) (confirmed : bool) : M state unit :=
  ret tt.

(** POST /subscribe; [None] is a body without [push]. *)
Definition post_subscribe (req_push : option push) : M state response :=
  try_catch
    (match req_push with
     | None =>
         ret (json 400 (JS.Obj [("error",
                JS.Str "Missing push.channel, push.signature, or push.timestamp")]))
     | Some p =>
         if unset (channel p) || negb (JS.truthy (signature p))
            || negb (JS.truthy (timestamp p))
         then
           ret (json 400 (JS.Obj [("error",
                  JS.Str "Missing push.channel, push.signature, or push.timestamp")]))
         else
           let ch := default "" (channel p) in
           let* st := read in
           match subs st !! ch with
           | Some e =>
               ret (json 200 (JS.Obj
                      [("status", JS.Str "exists");
                       ("channel", JS.Str ch);
                       ("expires_in", expires_in p);
                       ("createdAt", JS.Str (createdAt e))]))
           | None =>
               let* handle := createFayeClient ch (signature p) (timestamp p) in
               emit (BusSubscribe handle ch) ;;
               let* st' := read in
               write (set_subs st' (<[ch := {| client := handle;
                                               createdAt := now w |}]> (subs st'))) ;;
               ret (json 200 (JS.Obj
                      [("status", JS.Str "subscribed");
                       ("channel", JS.Str ch);
                       ("expires_in", JS.coalesce (expires_in p) JS.Null)]))
           end
     end)
    (fun e => ret (json 500 (JS.Obj [("error", JS.Str e)]))).

(** POST /unsubscribe; [None] is a body without [channel]. *)
Definition post_unsubscribe (req_channel : option string) : M state response :=
  try_catch
    (if unset req_channel then
       ret (json 400 (JS.Obj [("error", JS.Str "Missing channel")]))
     else
       let ch := default "" req_channel in
       let* st := read in
       match subs st !! ch with
       | None =>
           ret (json 200 (JS.Obj [("status", JS.Str "not_found");
                                  ("channel", JS.Str ch)]))
       | Some e =>
           emit (BusCancel (client e)) ;;
           (match cancel_error w (client e) with
            | Some msg => throw msg
            | None => ret tt
            end) ;;
           let* st' := read in
           write (set_subs st' (delete ch (subs st'))) ;;
           ret (json 200 (JS.Obj [("status", JS.Str "unsubscribed");
                                  ("channel", JS.Str ch)]))
       end)
    (fun e => ret (json 500 (JS.Obj [("error", JS.Str e)]))).
End Handlers.

End ServerJs.

(** ** [src/unnamed/part_000], lines 1-227 *)

Module PushService.

(** A registry entry [{ client, subscription }], one handle for both. *)
Record entry : Type := { client : nat }.

(** [active], and the number of Faye clients constructed so far. *)
Record state : Type := { active : gmap string entry; clients : nat }.

Definition set_active (st : state) (m : gmap string entry) : state :=
  {| active := m; clients := clients st |}.

(** The bound of the confirmation wait, in milliseconds. *)
Definition confirmation_timeout : N := 15000.

Inductive wait : Type := Confirmed | TimedOut.

Section Handlers.
Context (w : world) (cfg : env).

Definition cometd : string :=
  default "https://podio.com:443/cometd" (PODIO_COMETD_URL cfg).

Definition forwardToAVA {S} (payload : JS.value) : M S unit :=
  if unset (AVA_TOPIC_URL cfg) then ret tt
  else try_catch (axios_post w (AVA_TOPIC_URL cfg) payload) (fun _ => ret tt).

Definition forwardToDebug {S} (payload : JS.value) : M S unit :=
  if unset (DEBUG_WEBHOOK_URL cfg) then ret tt
  else try_catch (axios_post w (DEBUG_WEBHOOK_URL cfg) payload) (fun _ => ret tt).

(** The [outgoing] extension attached in [subscribeToChannel]. *)
Definition outgoing (channel : string) (signature timestamp : JS.value)
    (message : Bayeux.message) : Bayeux.message :=
  if String.eqb (Bayeux.channel message) "/meta/subscribe"
     && bool_decide (Bayeux.subscription message = Some channel) then
    let ext := default ∅ (Bayeux.ext message) in
    Bayeux.set_ext message
      (<["private_pub_timestamp" := JS.Str (JS.String timestamp)]>
         (<["private_pub_signature" := JS.Str (JS.String signature)]> ext))
  else message.

(** The callback given to [client.subscribe(channel, ...)]. *)
Definition on_message (channel : string) (pushPayload : JS.value) : M state unit :=
  let envelope :=
    JS.Obj [("meta", JS.Obj [("channel", JS.Str channel);
                             ("received_at", JS.Str (now w));
                             ("source", JS.Str "podio-push")]);
            ("push_event", pushPayload)] in
  forwardToAVA envelope ;;
  forwardToDebug envelope.

(** The race of [subscription.callback] against [setTimeout(..., 15000)]:
    the timer wins unless the confirmation came in before it is due. *)
Definition await_confirmation (handle : nat) : wait :=
  match confirmed_after w handle with
  | Some t => if (t <? confirmation_timeout)%N then Confirmed else TimedOut
  | None => TimedOut
  end.

(** [subscribeToChannel] up to its [await]: either the early result, or the
    handle of the client whose confirmation is awaited. *)
Definition subscribe_start (channel : string) (signature timestamp : JS.value)
  : M state (JS.value + nat) :=
  let* st := read in
  match active st !! channel with
  | Some _ =>
      ret (inl (JS.Obj [("status", JS.Str "already_subscribed");
                        ("channel", JS.Str channel)]))
  | None =>
      let handle := clients st in
      write {| active := active st; clients := S handle |} ;;
      emit (NewClient handle cometd) ;;
      emit (BusSubscribe handle channel) ;;
      ret (inr handle)
  end.

(** [subscribeToChannel] from its [await] on. *)
Definition subscribe_resume (channel : string) (handle : nat) : M state JS.value :=
  match await_confirmation handle with
  | TimedOut => throw "Subscribe timeout (no confirmation received)"
  | Confirmed =>
      let* st := read in
      write (set_active st (<[channel := {| client := handle |}]> (active st))) ;;
      ret (JS.Obj [("status", JS.Str "subscribed"); ("channel", JS.Str channel)])
  end.

Definition subscribeToChannel (channel : string) (signature timestamp : JS.value)
  : M state JS.value :=
  let* r := subscribe_start channel signature timestamp in
  match r with
  | inl result => ret result
  | inr handle => subscribe_resume channel handle
  end.

Definition unsubscribeFromChannel (channel : string) : M state JS.value :=
  let* st := read in
  match active st !! channel with
  | None =>
      ret (JS.Obj [("status", JS.Str "not_found"); ("channel", JS.Str channel)])
  | Some rec =>
      try_catch (emit (BusCancel (client rec)) ;;
                 match cancel_error w (client rec) with
                 | Some msg => throw msg
                 | None => ret tt
                 end)
                (fun _ => ret tt) ;;
      try_catch (emit (BusDisconnect (client rec)) ;;
                 match disconnect_error w (client rec) with
                 | Some msg => throw msg
                 | None => ret tt
                 end)
                (fun _ => ret tt) ;;
      let* st' := read in
      write (set_active st' (delete channel (active st'))) ;;
      ret (JS.Obj [("status", JS.Str "unsubscribed"); ("channel", JS.Str channel)])
  end.

(** [err.message || "Internal error"] *)
Definition message_or_internal (e : string) : string :=
  if String.eqb e "" then "Internal error" else e.

(** POST /subscribe; [None] is a body without [push]. *)
Definition post_subscribe (req_push : option push) : M state response :=
  try_catch
    (let p := default {| channel := None; signature := JS.Undefined;
                         timestamp := JS.Undefined; expires_in := JS.Undefined |}
                      req_push in
     if unset (channel p) || negb (JS.truthy (signature p))
        || negb (JS.truthy (timestamp p))
     then
       ret (json 400 (JS.Obj [("error",
              JS.Str "Missing required fields: push.channel, push.signature, push.timestamp")]))
     else
       let* result :=
         subscribeToChannel (default "" (channel p)) (signature p) (timestamp p) in
       ret (json 200 (JS.Obj [("ok", JS.Bool true); ("result", result);
                              ("cometd", JS.Str cometd)])))
    (fun e => ret (json 500 (JS.Obj [("ok", JS.Bool false);
                                     ("error", JS.Str (message_or_internal e))]))).

(** POST /unsubscribe; [None] is a body without [channel]. *)
Definition post_unsubscribe (req_channel : option string) : M state response :=
  try_catch
    (if unset req_channel then
       ret (json 400 (JS.Obj [("error", JS.Str "Missing body.channel")]))
     else
       let* result := unsubscribeFromChannel (default "" req_channel) in
       ret (json 200 (JS.Obj [("ok", JS.Bool true); ("result", result)])))
    (fun e => ret (json 500 (JS.Obj [("ok", JS.Bool false);
                                     ("error", JS.Str (message_or_internal e))]))).

(** GET /health.  The keys are listed as a set: the order of insertion,
    which JavaScript reports them in, is not recorded by the registry. *)
Definition get_health : M state response :=
  let* st := read in
  ret (json 200 (JS.Obj
         [("ok", JS.Bool true);
          ("env", JS.Str (default "production" (NODE_ENV cfg)));
          ("cometd", JS.Str cometd);
          ("subscriptions", JS.Arr (JS.Str <$> (map_to_list (active st)).*1))])).
End Handlers.

End PushService.

(** ** The webhook-only listeners: [src/server.js] lines 220-343,
    [src/unnamed/part_000] lines 228-345 and lines 346-469 *)

Module Listener.

Section Handlers.
Context (w : world) (cfg : env).

Definition validatePodioSignature {S} (body : JS.value) (signature : option string)
  : M S bool :=
  let* computed :=
    createHmac_sha1_hex w (PODIO_PUSH_SECRET cfg) (JSON_stringify w body) in
  ret (match signature with
       | Some s => String.eqb computed s
       | None => false
       end).

Definition forwardToAVA {S} (payload : JS.value) : M S unit :=
  try_catch (axios_post w (AVA_TOPIC_URL cfg) payload) (fun _ => ret tt).

Definition forwardToDebug {S} (payload : JS.value) : M S unit :=
  if unset (DEBUG_WEBHOOK_URL cfg) then ret tt
  else try_catch (axios_post w (DEBUG_WEBHOOK_URL cfg) payload) (fun _ => ret tt).

(** [body.k]: a TypeError when [body] is [null] or [undefined]. *)
Definition get_prop {S} (body : JS.value) (k : string) : M S JS.value :=
  match body with
  | JS.Undefined | JS.Null => throw "TypeError: cannot read properties"
  | _ => ret (JS.get body k)
  end.

(** POST /podio/push *)
Definition post_podio_push (req_body : JS.value) (x_podio_signature : option string)
  : M unit response :=
  let body := req_body in
  let* type := get_prop body "type" in
  if JS.is_str type "subscription_verification" then
    ret (json 200 (JS.Obj
           [("status", JS.Str "ok");
            ("subscribe_url",
             JS.Str (JS.String (js_opt (APP_BASE_URL cfg)) +:+ "/podio/push"));
            ("challenge", JS.get body "challenge")]))
  else
    let signature := x_podio_signature in
    if unset signature then ret (send 401 "Invalid signature")
    else
      let* valid := validatePodioSignature body signature in
      if negb valid then ret (send 401 "Invalid signature")
      else
        forwardToAVA body ;;
        forwardToDebug body ;;
        ret (send 200 "OK").
End Handlers.

End Listener.

(** The posts one forward function sends for a configured target: one
    attempt when the url is set and not empty, with the fate the outside
    gives it. *)
Definition attempt (w : world) (url : option string) (payload : JS.value) : list call :=
  if unset url then []
  else [HttpPost (default "" url) payload (http_ok w (default "" url) payload)].

(** ** Fixtures: a process environment, two outside worlds, a registry *)

Module Fixture.

Definition cfg : env :=
  {| PODIO_PUSH_SECRET := Some "s3cret";
     APP_BASE_URL := Some "https://relay.example";
     AVA_TOPIC_URL := Some "https://ava.example/topic";
     DEBUG_WEBHOOK_URL := Some "https://debug.example/hook";
     PODIO_COMETD_URL := None;
     NODE_ENV := None |}.

(** The same process started without [PODIO_PUSH_SECRET]. *)
Definition cfg_no_secret : env :=
  {| PODIO_PUSH_SECRET := None;
     APP_BASE_URL := APP_BASE_URL cfg;
     AVA_TOPIC_URL := AVA_TOPIC_URL cfg;
     DEBUG_WEBHOOK_URL := DEBUG_WEBHOOK_URL cfg;
     PODIO_COMETD_URL := None;
     NODE_ENV := None |}.

(** A stand-in digest, enough to tell keys and bodies apart. *)
Definition digest (key data : string) : string := key +:+ "|" +:+ data.

(** Everything outside works: posts arrive, the bus confirms after 120 ms. *)
Definition calm : world :=
  {| hmac_sha1_hex := digest;
     stringify := JS.String;
     http_ok := fun _ _ => true;
     now := "2023-11-14T22:13:20.000Z";
     cancel_error := fun _ => None;
     disconnect_error := fun _ => None;
     confirmed_after := fun _ => Some 120%N |}.

(** The AVA topic refuses connections, the bus never confirms and teardown
    calls throw. *)
Definition stormy : world :=
  {| hmac_sha1_hex := digest;
     stringify := JS.String;
     http_ok := fun url _ => negb (String.eqb url "https://ava.example/topic");
     now := "2023-11-14T22:13:20.000Z";
     cancel_error := fun _ => Some "transport down";
     disconnect_error := fun _ => Some "socket closed";
     confirmed_after := fun _ => None |}.

Definition task1 : push :=
  {| channel := Some "/task/1"; signature := JS.Str "abc";
     timestamp := JS.Num 1700000000; expires_in := JS.Undefined |}.

(** A registry holding [/task/1] on client 0, for either server. *)
Definition subs1 : ServerJs.state :=
  {| ServerJs.subs := {[ "/task/1" := {| ServerJs.client := 0;
                                          ServerJs.createdAt := "2023-11-14T22:00:00.000Z" |} ]};
     ServerJs.clients := 1 |}.

Definition active1 : PushService.state :=
  {| PushService.active := {[ "/task/1" := {| PushService.client := 0 |} ]};
     PushService.clients := 1 |}.

Definition subs0 : ServerJs.state := {| ServerJs.subs := ∅; ServerJs.clients := 0 |}.
Definition active0 : PushService.state :=
  {| PushService.active := ∅; PushService.clients := 0 |}.


Definition handshake : JS.value :=
  JS.Obj [("type", JS.Str "subscription_verification"); ("challenge", JS.Str "xyz")].

Definition handshake_empty_challenge : JS.value :=
  JS.Obj [("type", JS.Str "subscription_verification"); ("challenge", JS.Str "")].

Definition item_event : JS.value :=
  JS.Obj [("type", JS.Str "item.update"); ("item_id", JS.Num 42)].

End Fixture.

(** The value a computation completed with, if it did. *)
Definition outcome_value {A} (c : completion A) : option A :=
  match c with
  | Normal a => Some a
  | Thrown _ => None
  end.

(** ** [src/unnamed/part_000], lines 471-499: the /subscribe stub of the
    last webhook-only listener *)

Module PushBlob.

(** POST /subscribe; [None] is a body without [push]. *)
Definition post_subscribe (req_push : option push) : M unit response :=
  try_catch
    (match req_push with
     | None =>
         ret (json 400 (JS.Obj [("error",
                JS.Str "Invalid payload: missing push.channel/timestamp/signature")]))
     | Some p =>
         if unset (channel p) || negb (JS.truthy (timestamp p))
            || negb (JS.truthy (signature p))
         then
           ret (json 400 (JS.Obj [("error",
                  JS.Str "Invalid payload: missing push.channel/timestamp/signature")]))
         else
           ret (json 200 (JS.Obj [("status", JS.Str "ok");
                                  ("subscribed", js_opt (channel p));
                                  ("expires_in", expires_in p)]))
     end)
    (fun _ => ret (json 500 (JS.Obj [("error", JS.Str "Internal error")]))).

End PushBlob.

(** ** The servers over time *)

(** [src/server.js]: its handlers run one after the other.  None of them
    waits for the outside before it has changed the registry; the [await] on
    [cancel()] in /unsubscribe, like that in [unsubscribeFromChannel], is on
    a call that returns at once.  Each request meets the outside as it is at
    that moment. *)
Module ServerJsRun.

Inductive request : Type :=
  | Health
  | PodioPush (req_body : JS.value) (x_podio_signature : option string)
  | Subscribe (req_push : option push)
  | Unsubscribe (req_channel : option string)
  | Message (channel : string) (message : JS.value)
  | Settled (channel : string) (confirmed : bool).

Definition step (cfg : env) (st : ServerJs.state) (wr : world * request)
  : ServerJs.state :=
  let w := wr.1 in
  match wr.2 with
  | Health => final_state (ServerJs.get_health st)
  | PodioPush b sig => final_state (ServerJs.post_podio_push w cfg b sig st)
  | Subscribe p => final_state (ServerJs.post_subscribe w p st)
  | Unsubscribe c => final_state (ServerJs.post_unsubscribe w c st)
  | Message c m => final_state (ServerJs.on_message w cfg c m st)
  | Settled c b => final_state (ServerJs.on_settled c b st)
  end.

Definition run (cfg : env) (rs : list (world * request)) (st : ServerJs.state)
  : ServerJs.state :=
  foldl (step cfg) st rs.

Definition initial : ServerJs.state := {| ServerJs.subs := ∅; ServerJs.clients := 0 |}.

(** Every entry holds a client that was constructed, and no client serves
    two channels. *)
Definition dedicated (st : ServerJs.state) : Prop :=
  (∀ ch e, ServerJs.subs st !! ch = Some e → ServerJs.client e < ServerJs.clients st)
  ∧ (∀ ch1 ch2 e1 e2,
       ServerJs.subs st !! ch1 = Some e1 → ServerJs.subs st !! ch2 = Some e2 →
       ServerJs.client e1 = ServerJs.client e2 → ch1 = ch2).

End ServerJsRun.

(** [src/unnamed/part_000], lines 1-227: [subscribeToChannel] suspends at its
    [await], and other handlers run before it resumes.  The calls that wait
    for their confirmation are kept with the channel and the client they
    were started for. *)
Module PushServiceRun.

Record system : Type := {
  store : PushService.state;
  waiting : list (string * nat)
}.

Inductive event : Type :=
  | Begin (channel : string) (signature timestamp : JS.value)
  | Resume (i : nat)
  | Unsubscribe (channel : string)
  | Health
  | Message (channel : string) (pushPayload : JS.value).

Definition step (cfg : env) (sys : system) (we : world * event) : system :=
  let w := we.1 in
  match we.2 with
  | Begin c sig ts =>
      match PushService.subscribe_start cfg c sig ts (store sys) with
      | (st, _, Normal (inr handle)) =>
          {| store := st; waiting := waiting sys ++ [(c, handle)] |}
      | (st, _, _) => {| store := st; waiting := waiting sys |}
      end
  | Resume i =>
      match waiting sys !! i with
      | Some (c, handle) =>
          {| store := final_state (PushService.subscribe_resume w c handle (store sys));
             waiting := delete i (waiting sys) |}
      | None => sys
      end
  | Unsubscribe c =>
      {| store := final_state (PushService.unsubscribeFromChannel w c (store sys));
         waiting := waiting sys |}
  | Health =>
      {| store := final_state (PushService.get_health cfg (store sys));
         waiting := waiting sys |}
  | Message c m =>
      {| store := final_state (PushService.on_message w cfg c m (store sys));
         waiting := waiting sys |}
  end.

Definition run (cfg : env) (es : list (world * event)) (sys : system) : system :=
  foldl (step cfg) sys es.

Definition initial : system :=
  {| store := {| PushService.active := ∅; PushService.clients := 0 |};
     waiting := [] |}.

(** Every client in the registry or waiting for its confirmation was
    constructed; no client serves two channels of the registry; a waiting
    client is in no entry, and waits once. *)
Definition dedicated (sys : system) : Prop :=
  (∀ ch e, PushService.active (store sys) !! ch = Some e →
           PushService.client e < PushService.clients (store sys))
  ∧ (∀ ch1 ch2 e1 e2,
       PushService.active (store sys) !! ch1 = Some e1 →
       PushService.active (store sys) !! ch2 = Some e2 →
       PushService.client e1 = PushService.client e2 → ch1 = ch2)
  ∧ (∀ h, h ∈ (waiting sys).*2 →
          h < PushService.clients (store sys)
          ∧ ∀ ch e, PushService.active (store sys) !! ch = Some e →
                    PushService.client e ≠ h)
  ∧ NoDup (waiting sys).*2.

End PushServiceRun.

(** * Properties *)

(** ** Running the monad *)

Ltac run :=
  unfold final_state, calls, outcome, bind, ret, throw, emit, read, write, try_catch;
  cbn [fst snd].

Lemma string_eqb_true (a b : string) : String.eqb a b = true ↔ a = b.
Proof. apply String.eqb_eq. Qed.

Lemma unset_false (x : option string) :
  unset x = false → ∃ s, x = Some s ∧ s ≠ "".
Proof.
  destruct x as [s|]; simpl; [|discriminate].
  intros H. exists s. split; [done|].
  intros ->. discriminate.
Qed.

(** ** The Auth Extension *)

(** The interceptor of [subscribeToChannel] tags the subscribe message of its
    own channel with both fields and touches nothing else of it. *)
Lemma PushService_outgoing_own (ch : string) (sig ts : JS.value) (m : Bayeux.message) :
  Bayeux.channel m = "/meta/subscribe" →
  Bayeux.subscription m = Some ch →
  let m' := PushService.outgoing ch sig ts m in
  (∃ e, Bayeux.ext m' = Some e
        ∧ e !! "private_pub_signature" = Some (JS.Str (JS.String sig))
        ∧ e !! "private_pub_timestamp" = Some (JS.Str (JS.String ts))
        ∧ ∀ k, k ≠ "private_pub_signature" → k ≠ "private_pub_timestamp" →
               e !! k = default ∅ (Bayeux.ext m) !! k)
  ∧ Bayeux.channel m' = Bayeux.channel m
  ∧ Bayeux.subscription m' = Bayeux.subscription m
  ∧ Bayeux.fields m' = Bayeux.fields m.
Proof.
  intros Hc Hs. unfold PushService.outgoing.
  rewrite Hc, Hs, bool_decide_eq_true_2 by done. simpl.
  split; [|done].
  eexists. split; [reflexivity|].
  split; [by rewrite lookup_insert_ne, lookup_insert_eq|].
  split; [by rewrite lookup_insert_eq|].
  intros k H1 H2. by rewrite !lookup_insert_ne.
Qed.

(** Every other message leaves the interceptor of [subscribeToChannel] as it
    came. *)
Lemma PushService_outgoing_other (ch : string) (sig ts : JS.value) (m : Bayeux.message) :
  ¬ (Bayeux.channel m = "/meta/subscribe" ∧ Bayeux.subscription m = Some ch) →
  PushService.outgoing ch sig ts m = m.
Proof.
  intros H. unfold PushService.outgoing.
  destruct (String.eqb _ _) eqn:Hc; [|done]. simpl.
  case_bool_decide; [|done].
  exfalso. apply H. by rewrite string_eqb_true in Hc.
Qed.

(** The interceptor of [createFayeClient] leaves every message that is not a
    subscribe message as it came. *)
Lemma ServerJs_outgoing_other (ch : string) (sig ts : JS.value) (m : Bayeux.message) :
  Bayeux.channel m ≠ "/meta/subscribe" →
  ServerJs.outgoing ch sig ts m = m.
Proof.
  intros H. unfold ServerJs.outgoing.
  destruct (String.eqb _ _) eqn:Hc; [|done].
  by rewrite string_eqb_true in Hc.
Qed.


(** ** Duplicate subscribe *)

Lemma ServerJs_subscribe_exists (w : world) (p : push) (ch : string)
    (e : ServerJs.entry) (st : ServerJs.state) :
  channel p = Some ch → ch ≠ "" →
  JS.truthy (signature p) = true → JS.truthy (timestamp p) = true →
  ServerJs.subs st !! ch = Some e →
  ServerJs.post_subscribe w (Some p) st
  = (st, [], Normal (json 200 (JS.Obj [("status", JS.Str "exists");
                                       ("channel", JS.Str ch);
                                       ("expires_in", expires_in p);
                                       ("createdAt", JS.Str (ServerJs.createdAt e))]))).
Proof.
  intros Hch Hne Hsig Hts Hin. unfold ServerJs.post_subscribe.
  rewrite Hch, Hsig, Hts. simpl.
  destruct (String.eqb ch "") eqn:E; [by rewrite string_eqb_true in E|].
  run. simpl. by rewrite Hin.
Qed.

Lemma PushService_subscribe_already (w : world) (cfg : env) (ch : string)
    (sig ts : JS.value) (e : PushService.entry) (st : PushService.state) :
  PushService.active st !! ch = Some e →
  PushService.subscribeToChannel w cfg ch sig ts st
  = (st, [], Normal (JS.Obj [("status", JS.Str "already_subscribed");
                             ("channel", JS.Str ch)])).
Proof.
  intros Hin. unfold PushService.subscribeToChannel, PushService.subscribe_start.
  run. by rewrite Hin.
Qed.

(** C2 as stated fails on [subscribeToChannel]: with [/task/1] in the
    registry, a second subscribe for it does not answer status [exists]. *)
Lemma subscribeToChannel_duplicate_is_not_exists :
  ¬ ∃ result,
      outcome (PushService.subscribeToChannel Fixture.calm Fixture.cfg "/task/1"
                 (JS.Str "abc") (JS.Num 1700000000) Fixture.active1)
      = Normal result
      ∧ JS.get result "status" = JS.Str "exists".
Proof.
  intros [result [H1 H2]].
  erewrite PushService_subscribe_already in H1 by reflexivity.
  unfold outcome in H1. simpl in H1. injection H1 as <-. discriminate H2.
Qed.

(** C2, amended: for a channel that has a registry entry, a second subscribe
    answers [exists] in the /subscribe route of [src/server.js] and
    [already_subscribed] in [subscribeToChannel]; in both it constructs no
    client, makes no call to the bus, and leaves the whole state, so the one
    entry of the channel too, as it was. *)
Theorem duplicate_subscribe_idempotent (w : world) (cfg : env) (ch : string)
    (sig ts exp : JS.value) :
  ch ≠ "" → JS.truthy sig = true → JS.truthy ts = true →
  let p := {| channel := Some ch; signature := sig; timestamp := ts;
              expires_in := exp |} in
  (∀ st e, ServerJs.subs st !! ch = Some e →
     let r := ServerJs.post_subscribe w (Some p) st in
     (∃ rest, outcome r = Normal (json 200 (JS.Obj (("status", JS.Str "exists")
                                                    :: ("channel", JS.Str ch) :: rest))))
     ∧ calls r = []
     ∧ final_state r = st
     ∧ ServerJs.subs (final_state r) !! ch = Some e)
  ∧ (∀ st e, PushService.active st !! ch = Some e →
       let r := PushService.subscribeToChannel w cfg ch sig ts st in
       outcome r = Normal (JS.Obj [("status", JS.Str "already_subscribed");
                                   ("channel", JS.Str ch)])
       ∧ calls r = []
       ∧ final_state r = st
       ∧ PushService.active (final_state r) !! ch = Some e).
Proof.
  intros Hne Hsig Hts p. split.
  - intros st e Hin r. subst r.
    rewrite (ServerJs_subscribe_exists w p ch e st) by done.
    unfold outcome, calls, final_state. simpl. eauto.
  - intros st e Hin r. subst r.
    rewrite (PushService_subscribe_already w cfg ch sig ts e st) by done.
    unfold outcome, calls, final_state. simpl. eauto.
Qed.

Lemma duplicate_subscribe_idempotent_witness :
  (let r := ServerJs.post_subscribe Fixture.calm (Some Fixture.task1)
              Fixture.subs1 in
   calls r = [] ∧ final_state r = Fixture.subs1)
  ∧ (let r := PushService.subscribeToChannel Fixture.calm Fixture.cfg "/task/1"
                (JS.Str "abc") (JS.Num 1700000000) Fixture.active1 in
     calls r = [] ∧ final_state r = Fixture.active1).
Proof.
  pose proof (duplicate_subscribe_idempotent Fixture.calm Fixture.cfg "/task/1"
                (JS.Str "abc") (JS.Num 1700000000) JS.Undefined
                ltac:(discriminate) eq_refl eq_refl) as [H1 H2].
  split.
  - destruct (H1 Fixture.subs1 _ eq_refl) as (_ & Hc & Hs & _). by split.
  - destruct (H2 Fixture.active1 _ eq_refl) as (_ & Hc & Hs & _). by split.
Defined.

(** ** Subscribe and the confirmation of the bus *)

Lemma PushService_subscribe_start_fresh (cfg : env) (ch : string)
    (sig ts : JS.value) (st : PushService.state) :
  PushService.active st !! ch = None →
  PushService.subscribe_start cfg ch sig ts st
  = ({| PushService.active := PushService.active st;
        PushService.clients := S (PushService.clients st) |},
     [NewClient (PushService.clients st) (PushService.cometd cfg);
      BusSubscribe (PushService.clients st) ch],
     Normal (inr (PushService.clients st))).
Proof.
  intros Hfresh. unfold PushService.subscribe_start. run. by rewrite Hfresh.
Qed.

Lemma await_confirmation_late (w : world) (h : nat) :
  (∀ t, confirmed_after w h = Some t → (PushService.confirmation_timeout ≤ t)%N) →
  PushService.await_confirmation w h = PushService.TimedOut.
Proof.
  intros Hlate. unfold PushService.await_confirmation.
  destruct (confirmed_after w h) as [t|]; [|done].
  specialize (Hlate t eq_refl).
  destruct (N.ltb_spec t PushService.confirmation_timeout); [lia|done].
Qed.

Lemma await_confirmation_in_time (w : world) (h : nat) (t : N) :
  confirmed_after w h = Some t → (t < PushService.confirmation_timeout)%N →
  PushService.await_confirmation w h = PushService.Confirmed.
Proof.
  intros Ht Hlt. unfold PushService.await_confirmation. rewrite Ht.
  destruct (N.ltb_spec t PushService.confirmation_timeout); [done|lia].
Qed.

Lemma PushService_subscribe_timeout (w : world) (cfg : env) (ch : string)
    (sig ts : JS.value) (st : PushService.state) :
  PushService.active st !! ch = None →
  PushService.await_confirmation w (PushService.clients st) = PushService.TimedOut →
  PushService.subscribeToChannel w cfg ch sig ts st
  = ({| PushService.active := PushService.active st;
        PushService.clients := S (PushService.clients st) |},
     [NewClient (PushService.clients st) (PushService.cometd cfg);
      BusSubscribe (PushService.clients st) ch],
     Thrown "Subscribe timeout (no confirmation received)").
Proof.
  intros Hfresh Hwait. unfold PushService.subscribeToChannel, bind.
  rewrite PushService_subscribe_start_fresh by done.
  unfold PushService.subscribe_resume. rewrite Hwait. reflexivity.
Qed.

Lemma PushService_subscribe_confirmed (w : world) (cfg : env) (ch : string)
    (sig ts : JS.value) (st : PushService.state) :
  PushService.active st !! ch = None →
  PushService.await_confirmation w (PushService.clients st) = PushService.Confirmed →
  PushService.subscribeToChannel w cfg ch sig ts st
  = ({| PushService.active :=
          <[ch := {| PushService.client := PushService.clients st |}]>
            (PushService.active st);
        PushService.clients := S (PushService.clients st) |},
     [NewClient (PushService.clients st) (PushService.cometd cfg);
      BusSubscribe (PushService.clients st) ch],
     Normal (JS.Obj [("status", JS.Str "subscribed"); ("channel", JS.Str ch)])).
Proof.
  intros Hfresh Hwait. unfold PushService.subscribeToChannel, bind.
  rewrite PushService_subscribe_start_fresh by done.
  unfold PushService.subscribe_resume. rewrite Hwait. reflexivity.
Qed.

Lemma PushService_post_subscribe_valid (w : world) (cfg : env) (ch : string)
    (sig ts exp : JS.value) (st : PushService.state) :
  ch ≠ "" → JS.truthy sig = true → JS.truthy ts = true →
  PushService.post_subscribe w cfg
    (Some {| channel := Some ch; signature := sig; timestamp := ts;
             expires_in := exp |}) st
  = try_catch
      (let* result := PushService.subscribeToChannel w cfg ch sig ts in
       ret (json 200 (JS.Obj [("ok", JS.Bool true); ("result", result);
                              ("cometd", JS.Str (PushService.cometd cfg))])))
      (fun e => ret (json 500 (JS.Obj [("ok", JS.Bool false);
                       ("error", JS.Str (PushService.message_or_internal e))]))) st.
Proof.
  intros Hne Hsig Hts. unfold PushService.post_subscribe. simpl.
  rewrite Hsig, Hts. simpl.
  destruct (String.eqb ch "") eqn:E; [by rewrite string_eqb_true in E|].
  reflexivity.
Qed.

Lemma ServerJs_subscribe_fresh (w : world) (p : push) (ch : string)
    (st : ServerJs.state) :
  channel p = Some ch → ch ≠ "" →
  JS.truthy (signature p) = true → JS.truthy (timestamp p) = true →
  ServerJs.subs st !! ch = None →
  ServerJs.post_subscribe w (Some p) st
  = ({| ServerJs.subs :=
          <[ch := {| ServerJs.client := ServerJs.clients st;
                     ServerJs.createdAt := now w |}]> (ServerJs.subs st);
        ServerJs.clients := S (ServerJs.clients st) |},
     [NewClient (ServerJs.clients st) ServerJs.endpoint;
      BusSubscribe (ServerJs.clients st) ch],
     Normal (json 200 (JS.Obj [("status", JS.Str "subscribed");
                               ("channel", JS.Str ch);
                               ("expires_in", JS.coalesce (expires_in p) JS.Null)]))).
Proof.
  intros Hch Hne Hsig Hts Hfresh. unfold ServerJs.post_subscribe.
  rewrite Hch, Hsig, Hts. simpl.
  destruct (String.eqb ch "") eqn:E; [by rewrite string_eqb_true in E|].
  unfold ServerJs.createFayeClient. run. simpl. rewrite Hfresh. reflexivity.
Qed.

(** C3 as stated fails on both servers.  [subscribeToChannel] holds no entry
    for the channel while the confirmation is awaited; and under a bus that
    never confirms, the /subscribe route of [src/server.js] answers
    [subscribed] and keeps the entry, also once the subscription is refused. *)
Lemma subscribe_pending_entry_counterexample :
  ¬ is_Some (PushService.active
               (final_state (PushService.subscribe_start Fixture.cfg "/task/1"
                               (JS.Str "abc") (JS.Num 1700000000) Fixture.active0))
             !! "/task/1")
  ∧ (let r := ServerJs.post_subscribe Fixture.stormy (Some Fixture.task1)
                Fixture.subs0 in
     confirmed_after Fixture.stormy 0 = None
     ∧ outcome r = Normal (json 200 (JS.Obj [("status", JS.Str "subscribed");
                                             ("channel", JS.Str "/task/1");
                                             ("expires_in", JS.Null)]))
     ∧ is_Some (ServerJs.subs (final_state r) !! "/task/1")
     ∧ is_Some (ServerJs.subs
                  (final_state (ServerJs.on_settled "/task/1" false (final_state r)))
                !! "/task/1")).
Proof.
  split.
  - rewrite PushService_subscribe_start_fresh by reflexivity.
    unfold final_state. simpl. intros [e He]. discriminate He.
  - rewrite (ServerJs_subscribe_fresh Fixture.stormy Fixture.task1 "/task/1")
      by (reflexivity || discriminate).
    unfold final_state, outcome, ServerJs.on_settled, ret. simpl.
    repeat split; rewrite lookup_insert_eq; eauto.
Qed.

(** C3, amended.  [subscribeToChannel] inserts the entry only once the bus
    has confirmed: the registry is untouched while the confirmation is
    awaited; if none arrives within 15000 ms the call throws its timeout
    error, /subscribe answers 500 with that error, and the registry is as
    before, without an entry for the channel; a confirmation in time inserts
    the entry and answers [subscribed].  The /subscribe route of
    [src/server.js] inserts the entry at once and answers [subscribed]
    without waiting for the bus. *)
Theorem subscribe_confirmation_design (w : world) (cfg : env) (ch : string)
    (sig ts exp : JS.value) :
  ch ≠ "" → JS.truthy sig = true → JS.truthy ts = true →
  let p := {| channel := Some ch; signature := sig; timestamp := ts;
              expires_in := exp |} in
  (∀ st, PushService.active st !! ch = None →
     let h := PushService.clients st in
     PushService.active (final_state (PushService.subscribe_start cfg ch sig ts st))
     = PushService.active st
     ∧ ((∀ t, confirmed_after w h = Some t →
              (PushService.confirmation_timeout ≤ t)%N) →
        let r := PushService.post_subscribe w cfg (Some p) st in
        outcome (PushService.subscribeToChannel w cfg ch sig ts st)
        = Thrown "Subscribe timeout (no confirmation received)"
        ∧ outcome r
          = Normal (json 500 (JS.Obj
              [("ok", JS.Bool false);
               ("error", JS.Str "Subscribe timeout (no confirmation received)")]))
        ∧ PushService.active (final_state r) = PushService.active st
        ∧ PushService.active (final_state r) !! ch = None)
     ∧ (∀ t, confirmed_after w h = Some t →
             (t < PushService.confirmation_timeout)%N →
        let r := PushService.post_subscribe w cfg (Some p) st in
        outcome r
        = Normal (json 200 (JS.Obj
            [("ok", JS.Bool true);
             ("result", JS.Obj [("status", JS.Str "subscribed");
                                ("channel", JS.Str ch)]);
             ("cometd", JS.Str (PushService.cometd cfg))]))
        ∧ PushService.active (final_state r)
          = <[ch := {| PushService.client := h |}]> (PushService.active st)))
  ∧ (∀ st, ServerJs.subs st !! ch = None →
       let r := ServerJs.post_subscribe w (Some p) st in
       outcome r = Normal (json 200 (JS.Obj
                      [("status", JS.Str "subscribed");
                       ("channel", JS.Str ch);
                       ("expires_in", JS.coalesce exp JS.Null)]))
       ∧ ServerJs.subs (final_state r)
         = <[ch := {| ServerJs.client := ServerJs.clients st;
                      ServerJs.createdAt := now w |}]> (ServerJs.subs st)).
Proof.
  intros Hne Hsig Hts p. split.
  - intros st Hfresh h. split; [|split].
    + by rewrite PushService_subscribe_start_fresh.
    + intros Hlate r. subst r p.
      apply await_confirmation_late in Hlate.
      rewrite PushService_post_subscribe_valid by done.
      unfold try_catch, bind.
      rewrite PushService_subscribe_timeout by done.
      unfold outcome, final_state. simpl. done.
    + intros t Ht Hlt r. subst r p.
      pose proof (await_confirmation_in_time w h t Ht Hlt) as Hwait.
      rewrite PushService_post_subscribe_valid by done.
      unfold try_catch, bind.
      rewrite PushService_subscribe_confirmed by done.
      unfold outcome, final_state. simpl. done.
  - intros st Hfresh r. subst r.
    rewrite (ServerJs_subscribe_fresh w p ch) by done.
    unfold outcome, final_state. simpl. done.
Qed.

Lemma subscribe_confirmation_design_witness :
  PushService.active
    (final_state (PushService.post_subscribe Fixture.stormy Fixture.cfg
                    (Some Fixture.task1) Fixture.active0)) !! "/task/1" = None
  ∧ ServerJs.subs
      (final_state (ServerJs.post_subscribe Fixture.stormy (Some Fixture.task1)
                      Fixture.subs0))
    = <["/task/1" := {| ServerJs.client := 0;
                        ServerJs.createdAt := now Fixture.stormy |}]> ∅.
Proof.
  pose proof (subscribe_confirmation_design Fixture.stormy Fixture.cfg "/task/1"
                (JS.Str "abc") (JS.Num 1700000000) JS.Undefined
                ltac:(discriminate) eq_refl eq_refl) as [H1 H2].
  split.
  - destruct (H1 Fixture.active0 eq_refl) as (_ & Hlate & _).
    apply Hlate. intros t Ht. discriminate Ht.
  - apply (H2 Fixture.subs0 eq_refl).
Defined.

(** ** Unsubscribe *)

Lemma PushService_unsubscribe_not_found (w : world) (ch : string)
    (st : PushService.state) :
  PushService.active st !! ch = None →
  PushService.unsubscribeFromChannel w ch st
  = (st, [], Normal (JS.Obj [("status", JS.Str "not_found");
                             ("channel", JS.Str ch)])).
Proof.
  intros Hnone. unfold PushService.unsubscribeFromChannel. run. by rewrite Hnone.
Qed.

(** Teardown in [unsubscribeFromChannel] is best effort: whatever cancel and
    disconnect throw, both are issued, the entry goes, and the result is
    [unsubscribed]. *)
Lemma PushService_unsubscribe_found (w : world) (ch : string)
    (rec : PushService.entry) (st : PushService.state) :
  PushService.active st !! ch = Some rec →
  PushService.unsubscribeFromChannel w ch st
  = (PushService.set_active st (delete ch (PushService.active st)),
     [BusCancel (PushService.client rec); BusDisconnect (PushService.client rec)],
     Normal (JS.Obj [("status", JS.Str "unsubscribed"); ("channel", JS.Str ch)])).
Proof.
  intros Hin. unfold PushService.unsubscribeFromChannel. run. rewrite Hin. run.
  destruct (cancel_error w _), (disconnect_error w _); reflexivity.
Qed.

Lemma ServerJs_unsubscribe_not_found (w : world) (ch : string)
    (st : ServerJs.state) :
  ch ≠ "" → ServerJs.subs st !! ch = None →
  ServerJs.post_unsubscribe w (Some ch) st
  = (st, [], Normal (json 200 (JS.Obj [("status", JS.Str "not_found");
                                       ("channel", JS.Str ch)]))).
Proof.
  intros Hne Hnone. unfold ServerJs.post_unsubscribe. simpl.
  destruct (String.eqb ch "") eqn:E; [by rewrite string_eqb_true in E|].
  run. simpl. by rewrite Hnone.
Qed.

Lemma ServerJs_unsubscribe_found (w : world) (ch : string)
    (e : ServerJs.entry) (st : ServerJs.state) :
  ch ≠ "" → ServerJs.subs st !! ch = Some e →
  ServerJs.post_unsubscribe w (Some ch) st
  = match cancel_error w (ServerJs.client e) with
    | None =>
        (ServerJs.set_subs st (delete ch (ServerJs.subs st)),
         [BusCancel (ServerJs.client e)],
         Normal (json 200 (JS.Obj [("status", JS.Str "unsubscribed");
                                   ("channel", JS.Str ch)])))
    | Some msg =>
        (st, [BusCancel (ServerJs.client e)],
         Normal (json 500 (JS.Obj [("error", JS.Str msg)])))
    end.
Proof.
  intros Hne Hin. unfold ServerJs.post_unsubscribe. simpl.
  destruct (String.eqb ch "") eqn:E; [by rewrite string_eqb_true in E|].
  run. simpl. rewrite Hin. run.
  destruct (cancel_error w _); reflexivity.
Qed.

(** C4, at the inputs where [src/server.js] departs from it: /unsubscribe for
    [/task/1], held in the registry on client 0.  When teardown works the
    route cancels the subscription and never disconnects the client; when
    cancel throws it answers 500 with the error and keeps the entry.
    [unsubscribeFromChannel], on the same registry and under the same
    failures, issues both calls, drops the entry and answers
    [unsubscribed]. *)
Theorem post_unsubscribe_teardown_departs :
  (let r := ServerJs.post_unsubscribe Fixture.calm (Some "/task/1") Fixture.subs1 in
   calls r = [BusCancel 0]
   ∧ outcome r = Normal (json 200 (JS.Obj [("status", JS.Str "unsubscribed");
                                           ("channel", JS.Str "/task/1")])))
  ∧ (let r := ServerJs.post_unsubscribe Fixture.stormy (Some "/task/1")
                Fixture.subs1 in
     calls r = [BusCancel 0]
     ∧ outcome r = Normal (json 500 (JS.Obj [("error", JS.Str "transport down")]))
     ∧ final_state r = Fixture.subs1)
  ∧ (let r := PushService.unsubscribeFromChannel Fixture.stormy "/task/1"
                Fixture.active1 in
     calls r = [BusCancel 0; BusDisconnect 0]
     ∧ outcome r = Normal (JS.Obj [("status", JS.Str "unsubscribed");
                                   ("channel", JS.Str "/task/1")])
     ∧ PushService.active (final_state r) !! "/task/1" = None).
Proof.
  split; [|split].
  - rewrite (ServerJs_unsubscribe_found Fixture.calm "/task/1" _ Fixture.subs1
               ltac:(discriminate) eq_refl).
    by split.
  - rewrite (ServerJs_unsubscribe_found Fixture.stormy "/task/1" _ Fixture.subs1
               ltac:(discriminate) eq_refl).
    by split.
  - rewrite (PushService_unsubscribe_found Fixture.stormy "/task/1" _ Fixture.active1
               eq_refl).
    unfold calls, outcome, final_state. simpl.
    repeat split.
Qed.

(** ** The relay *)

Lemma axios_post_caught {S} (w : world) (url : option string) (payload : JS.value)
    (s : S) :
  unset url = false →
  try_catch (axios_post w url payload) (fun _ => ret tt) s
  = (s, attempt w url payload, Normal tt).
Proof.
  intros Hset. unfold attempt. rewrite Hset.
  destruct url as [u|]; [|discriminate]. unfold axios_post. run. simpl.
  destruct (http_ok w u payload); reflexivity.
Qed.

Lemma ServerJs_forwardToAVA_run {S} (w : world) (cfg : env) (payload : JS.value)
    (s : S) :
  ServerJs.forwardToAVA w cfg payload s
  = (s, attempt w (AVA_TOPIC_URL cfg) payload, Normal tt).
Proof.
  unfold ServerJs.forwardToAVA.
  destruct (unset (AVA_TOPIC_URL cfg)) eqn:E.
  - unfold attempt. by rewrite E.
  - by apply axios_post_caught.
Qed.

Lemma ServerJs_forwardToDebug_run {S} (w : world) (cfg : env) (payload : JS.value)
    (s : S) :
  ServerJs.forwardToDebug w cfg payload s
  = (s, attempt w (DEBUG_WEBHOOK_URL cfg) payload, Normal tt).
Proof.
  unfold ServerJs.forwardToDebug.
  destruct (unset (DEBUG_WEBHOOK_URL cfg)) eqn:E.
  - unfold attempt. by rewrite E.
  - by apply axios_post_caught.
Qed.

Lemma PushService_forwardToAVA_run {S} (w : world) (cfg : env) (payload : JS.value)
    (s : S) :
  PushService.forwardToAVA w cfg payload s
  = (s, attempt w (AVA_TOPIC_URL cfg) payload, Normal tt).
Proof. apply (ServerJs_forwardToAVA_run w cfg payload s). Qed.

Lemma PushService_forwardToDebug_run {S} (w : world) (cfg : env) (payload : JS.value)
    (s : S) :
  PushService.forwardToDebug w cfg payload s
  = (s, attempt w (DEBUG_WEBHOOK_URL cfg) payload, Normal tt).
Proof. apply (ServerJs_forwardToDebug_run w cfg payload s). Qed.


Lemma attempt_posts_only (w : world) (url : option string) (payload : JS.value)
    (c : call) :
  c ∈ attempt w url payload → is_post c = true.
Proof.
  unfold attempt. destruct (unset url); [by intros ?%elem_of_nil|].
  by intros ->%list_elem_of_singleton.
Qed.

Lemma ServerJs_on_message_run (w : world) (cfg : env) (ch : string)
    (message : JS.value) (st : ServerJs.state) :
  let envelope := JS.Obj [("channel", JS.Str ch); ("message", message);
                          ("received_at", JS.Str (now w))] in
  ServerJs.on_message w cfg ch message st
  = (st, attempt w (AVA_TOPIC_URL cfg) envelope
         ++ attempt w (DEBUG_WEBHOOK_URL cfg) envelope, Normal tt)%list.
Proof.
  intros envelope. unfold ServerJs.on_message, bind.
  rewrite ServerJs_forwardToAVA_run, ServerJs_forwardToDebug_run. reflexivity.
Qed.

Lemma PushService_on_message_run (w : world) (cfg : env) (ch : string)
    (pushPayload : JS.value) (st : PushService.state) :
  let envelope :=
    JS.Obj [("meta", JS.Obj [("channel", JS.Str ch);
                             ("received_at", JS.Str (now w));
                             ("source", JS.Str "podio-push")]);
            ("push_event", pushPayload)] in
  PushService.on_message w cfg ch pushPayload st
  = (st, attempt w (AVA_TOPIC_URL cfg) envelope
         ++ attempt w (DEBUG_WEBHOOK_URL cfg) envelope, Normal tt)%list.
Proof.
  intros envelope. unfold PushService.on_message, bind.
  rewrite PushService_forwardToAVA_run, PushService_forwardToDebug_run. reflexivity.
Qed.

(** ** The webhook of [src/server.js] *)

Lemma is_str_get_truthy (v : JS.value) (k lit : string) :
  JS.is_str (JS.get v k) lit = true → JS.truthy v = true.
Proof. destruct v; simpl; done. Qed.

Lemma or_else_defined (v : JS.value) : JS.or_else v (JS.Obj []) ≠ JS.Undefined.
Proof. unfold JS.or_else. destruct (JS.truthy v) eqn:E; [|done]. by intros ->. Qed.

(** The verifier of [src/server.js] on a body that is a value: it hashes the
    body under the secret, or under the empty key when none is set, and
    returns whether the digest is the signature. *)
Lemma ServerJs_validate_run {S} (w : world) (cfg : env) (payload : JS.value)
    (sig : option string) (s : S) :
  payload ≠ JS.Undefined →
  let key := default "" (PODIO_PUSH_SECRET cfg) in
  let data := stringify w payload in
  ServerJs.validatePodioSignature w cfg payload sig s
  = (s, [Hmac key data],
     Normal (match sig with
             | Some x => String.eqb (hmac_sha1_hex w key data) x
             | None => false
             end)).
Proof.
  intros Hdef key data. unfold ServerJs.validatePodioSignature.
  destruct payload; try done; reflexivity.
Qed.

(** What the webhook does with a request that is no handshake. *)
Lemma ServerJs_push_regular (w : world) (cfg : env) (req : JS.value)
    (sig : option string) (st : ServerJs.state) :
  let payload := JS.or_else req (JS.Obj []) in
  let key := default "" (PODIO_PUSH_SECRET cfg) in
  let data := stringify w payload in
  JS.is_str (JS.get payload "type") "subscription_verification"
  && JS.truthy (JS.get payload "challenge") = false →
  ServerJs.post_podio_push w cfg req sig st
  = if unset sig then (st, [], Normal (send 401 "Invalid signature"))
    else if String.eqb (hmac_sha1_hex w key data) (default "" sig)
         then (st, Hmac key data
                   :: attempt w (AVA_TOPIC_URL cfg) payload
                   ++ attempt w (DEBUG_WEBHOOK_URL cfg) payload,
               Normal (send 200 "OK"))%list
         else (st, [Hmac key data], Normal (send 401 "Invalid signature")).
Proof.
  intros payload key data Hregular. unfold ServerJs.post_podio_push.
  fold payload. rewrite Hregular.
  destruct (unset sig) eqn:Hsig; [reflexivity|].
  unfold bind at 1.
  rewrite ServerJs_validate_run by apply or_else_defined.
  destruct sig as [s|]; [|discriminate]. simpl. fold key data.
  destruct (String.eqb (hmac_sha1_hex w key data) s); simpl; [|reflexivity].
  unfold bind.
  rewrite ServerJs_forwardToAVA_run, ServerJs_forwardToDebug_run. simpl.
  by rewrite app_nil_r.
Qed.

(** C5: a webhook body of the verification type that carries a challenge is
    answered at once, with status 200 and a body holding that very
    challenge.  No call leaves the process, so the verifier is not run; the
    answer is the same whatever signature header came, or none, and whatever
    secret is configured, or none.  It holds for the webhook of
    [src/server.js] and for that of the webhook-only listeners. *)
Theorem handshake_echoes_challenge (w : world) (cfg : env) (req : JS.value)
    (sig : option string) (st : ServerJs.state) :
  JS.is_str (JS.get req "type") "subscription_verification" = true →
  JS.truthy (JS.get req "challenge") = true →
  (∃ answer,
     ServerJs.post_podio_push w cfg req sig st = (st, [], Normal answer)
     ∧ status answer = 200
     ∧ JS.get (body answer) "challenge" = JS.get req "challenge")
  ∧ (∃ answer,
       Listener.post_podio_push w cfg req sig tt = (tt, [], Normal answer)
       ∧ status answer = 200
       ∧ JS.get (body answer) "challenge" = JS.get req "challenge").
Proof.
  intros Htype Hchallenge.
  pose proof (is_str_get_truthy _ _ _ Htype) as Htruthy. split.
  - unfold ServerJs.post_podio_push, JS.or_else.
    rewrite Htruthy, Htype, Hchallenge. simpl.
    eexists. split; [reflexivity|]. by split.
  - unfold Listener.post_podio_push, Listener.get_prop.
    destruct req; try discriminate Htruthy; run; rewrite Htype;
      (eexists; split; [reflexivity|]; by split).
Qed.

Lemma handshake_echoes_challenge_witness :
  ∃ answer,
    Listener.post_podio_push Fixture.stormy Fixture.cfg_no_secret Fixture.handshake
      (Some "not-a-digest") tt = (tt, [], Normal answer)
    ∧ JS.get (body answer) "challenge" = JS.Str "xyz".
Proof.
  destruct (handshake_echoes_challenge Fixture.stormy Fixture.cfg_no_secret
              Fixture.handshake (Some "not-a-digest") Fixture.subs0 eq_refl eq_refl)
    as [_ (answer & Hrun & _ & Hecho)].
  exists answer. by split.
Defined.

(** C6: in the webhook of [src/server.js], a request that is no handshake and
    whose signature header is absent, or is refused by the verifier, is
    answered 401 and no post goes to any forward target; and whenever a post
    does go out, the request was no handshake, carried a signature, and the
    verifier accepted it. *)
Theorem bad_signature_is_401_and_never_relayed (w : world) (cfg : env)
    (req : JS.value) (sig : option string) (st : ServerJs.state) :
  let payload := JS.or_else req (JS.Obj []) in
  let handshake := JS.is_str (JS.get payload "type") "subscription_verification"
                   && JS.truthy (JS.get payload "challenge") in
  let r := ServerJs.post_podio_push w cfg req sig st in
  (handshake = false →
   unset sig = true
   ∨ outcome (ServerJs.validatePodioSignature w cfg payload sig st) = Normal false →
   outcome r = Normal (send 401 "Invalid signature")
   ∧ (∀ c, c ∈ calls r → is_post c = false)
   ∧ final_state r = st)
  ∧ (∀ c, c ∈ calls r → is_post c = true →
     handshake = false
     ∧ unset sig = false
     ∧ outcome (ServerJs.validatePodioSignature w cfg payload sig st) = Normal true).
Proof.
  intros payload handshake r.
  destruct handshake eqn:Hregular; subst handshake.
  { split; [discriminate|]. subst r. unfold ServerJs.post_podio_push.
    fold payload. rewrite Hregular. by intros c ?%elem_of_nil. }
  subst r. rewrite ServerJs_push_regular by done. fold payload.
  rewrite (ServerJs_validate_run w cfg payload sig st) by apply or_else_defined.
  unfold outcome, calls, final_state. simpl.
  destruct (unset sig) eqn:Hsig; simpl.
  { split; [|by intros c ?%elem_of_nil].
    intros _ _. split; [done|]. split; [|done]. by intros c ?%elem_of_nil. }
  destruct sig as [s|]; [|discriminate]. simpl.
  destruct (String.eqb _ s) eqn:Hdigest; simpl.
  - split; [intros _ [?|?]; discriminate|]. done.
  - split.
    + intros _ _. split; [done|]. split; [|done].
      by intros c ->%list_elem_of_singleton.
    + intros c ->%list_elem_of_singleton. discriminate.
Qed.

Lemma bad_signature_is_401_and_never_relayed_witness :
  let r := ServerJs.post_podio_push Fixture.calm Fixture.cfg Fixture.item_event
             (Some "wrong") Fixture.subs1 in
  outcome r = Normal (send 401 "Invalid signature")
  ∧ (∀ c, c ∈ calls r → is_post c = false)
  ∧ final_state r = Fixture.subs1.
Proof.
  apply (bad_signature_is_401_and_never_relayed Fixture.calm Fixture.cfg
           Fixture.item_event (Some "wrong") Fixture.subs1); [reflexivity|].
  right. reflexivity.
Defined.

(** C10: in the webhook of [src/server.js], a body of the verification type
    whose challenge is absent or falsy is no handshake.  Without a signature
    header it is answered 401; with one the verifier is run on it, and it is
    answered 401 when the digest differs, and relayed to each configured
    target and answered 200 OK when the digest is the signature. *)
Theorem handshake_without_challenge_is_an_event (w : world) (cfg : env)
    (req : JS.value) (sig : option string) (st : ServerJs.state) :
  JS.is_str (JS.get req "type") "subscription_verification" = true →
  JS.truthy (JS.get req "challenge") = false →
  let r := ServerJs.post_podio_push w cfg req sig st in
  let key := default "" (PODIO_PUSH_SECRET cfg) in
  let data := stringify w req in
  (unset sig = true → r = (st, [], Normal (send 401 "Invalid signature")))
  ∧ (∀ s, sig = Some s → s ≠ "" →
       (hmac_sha1_hex w key data ≠ s →
        r = (st, [Hmac key data], Normal (send 401 "Invalid signature")))
       ∧ (hmac_sha1_hex w key data = s →
          r = (st, Hmac key data
                   :: attempt w (AVA_TOPIC_URL cfg) req
                   ++ attempt w (DEBUG_WEBHOOK_URL cfg) req,
               Normal (send 200 "OK"))%list)).
Proof.
  intros Htype Hchallenge r key data. subst r.
  pose proof (is_str_get_truthy _ _ _ Htype) as Htruthy.
  assert (JS.or_else req (JS.Obj []) = req) as Hbody
    by (unfold JS.or_else; by rewrite Htruthy).
  rewrite ServerJs_push_regular; rewrite Hbody;
    [|by rewrite Hchallenge, andb_false_r].
  fold key data. split.
  - by intros ->.
  - intros s -> Hne. simpl.
    destruct (String.eqb s "") eqn:E; [by rewrite string_eqb_true in E|].
    split.
    + intros Hdiff. destruct (String.eqb _ s) eqn:Hd; [|done].
      by rewrite string_eqb_true in Hd.
    + intros Hsame. by rewrite (proj2 (string_eqb_true _ _) Hsame).
Qed.

Lemma handshake_without_challenge_is_an_event_witness :
  ServerJs.post_podio_push Fixture.calm Fixture.cfg Fixture.handshake_empty_challenge
    None Fixture.subs1
  = (Fixture.subs1, [], Normal (send 401 "Invalid signature")).
Proof.
  apply (handshake_without_challenge_is_an_event Fixture.calm Fixture.cfg
           Fixture.handshake_empty_challenge None Fixture.subs1 eq_refl eq_refl).
  reflexivity.
Defined.

(** ** The verifier *)

(** The verifier of the webhook-only listeners, when a secret is set and the
    body is a value. *)
Lemma Listener_validate_run {S} (w : world) (cfg : env) (payload : JS.value)
    (sig : option string) (key : string) (s : S) :
  PODIO_PUSH_SECRET cfg = Some key → payload ≠ JS.Undefined →
  let data := stringify w payload in
  Listener.validatePodioSignature w cfg payload sig s
  = (s, [Hmac key data],
     Normal (match sig with
             | Some x => String.eqb (hmac_sha1_hex w key data) x
             | None => false
             end)).
Proof.
  intros Hkey Hdef data. unfold Listener.validatePodioSignature. rewrite Hkey.
  destruct payload; try done; reflexivity.
Qed.

(** Without a secret the verifier of the webhook-only listeners throws, on
    every body and signature. *)
Lemma Listener_validate_unset_secret {S} (w : world) (cfg : env)
    (payload : JS.value) (sig : option string) (s : S) :
  PODIO_PUSH_SECRET cfg = None →
  Listener.validatePodioSignature w cfg payload sig s
  = (s, [], Thrown "TypeError: the key argument must be of type string").
Proof.
  intros Hkey. unfold Listener.validatePodioSignature. by rewrite Hkey.
Qed.

(** C7, at the input where the webhook-only listeners depart from it: the
    process runs without [PODIO_PUSH_SECRET] and a request comes with a
    signature header.  Their verifier throws instead of returning false, and
    the webhook ends in that exception without an answer; the verifier of
    [src/server.js], which falls back to the empty key, returns false on the
    same input. *)
Theorem validatePodioSignature_throws_without_secret :
  PODIO_PUSH_SECRET Fixture.cfg_no_secret = None
  ∧ Listener.validatePodioSignature Fixture.calm Fixture.cfg_no_secret
      Fixture.item_event (Some "abc") tt
    = (tt, [], Thrown "TypeError: the key argument must be of type string")
  ∧ outcome (Listener.post_podio_push Fixture.calm Fixture.cfg_no_secret
               Fixture.item_event (Some "abc") tt)
    = Thrown "TypeError: the key argument must be of type string"
  ∧ outcome (ServerJs.validatePodioSignature Fixture.calm Fixture.cfg_no_secret
               Fixture.item_event (Some "abc") tt)
    = Normal false.
Proof. repeat split. Qed.

(** ** Fan-out *)



(** ** The registry *)

Lemma ServerJs_push_keeps_state (w : world) (cfg : env) (req : JS.value)
    (sig : option string) (st : ServerJs.state) :
  final_state (ServerJs.post_podio_push w cfg req sig st) = st.
Proof.
  destruct (JS.is_str (JS.get (JS.or_else req (JS.Obj [])) "type")
              "subscription_verification"
            && JS.truthy (JS.get (JS.or_else req (JS.Obj [])) "challenge")) eqn:E.
  - unfold ServerJs.post_podio_push. rewrite E. reflexivity.
  - rewrite ServerJs_push_regular by done.
    destruct (unset sig); [done|]. by destruct (String.eqb _ _).
Qed.

Lemma ServerJs_subscribe_frame (w : world) (req_push : option push)
    (c' : string) (st : ServerJs.state) :
  (∀ p, req_push = Some p → channel p ≠ Some c') →
  ServerJs.subs (final_state (ServerJs.post_subscribe w req_push st)) !! c'
  = ServerJs.subs st !! c'.
Proof.
  intros Hother. destruct req_push as [p|]; [|reflexivity].
  specialize (Hother p eq_refl).
  destruct (unset (channel p) || negb (JS.truthy (signature p))
            || negb (JS.truthy (timestamp p))) eqn:Hvalid.
  { unfold ServerJs.post_subscribe. rewrite Hvalid. reflexivity. }
  apply orb_false_elim in Hvalid as [Hvalid Hts].
  apply orb_false_elim in Hvalid as [Hch Hsig].
  apply negb_false_iff in Hts, Hsig.
  apply unset_false in Hch as (c & Hc & Hne).
  destruct (ServerJs.subs st !! c) as [e|] eqn:Hin.
  - by rewrite (ServerJs_subscribe_exists w p c e st).
  - rewrite (ServerJs_subscribe_fresh w p c st) by done.
    unfold final_state. simpl. apply lookup_insert_ne. congruence.
Qed.

Lemma ServerJs_unsubscribe_frame (w : world) (req_channel : option string)
    (c' : string) (st : ServerJs.state) :
  req_channel ≠ Some c' →
  ServerJs.subs (final_state (ServerJs.post_unsubscribe w req_channel st)) !! c'
  = ServerJs.subs st !! c'.
Proof.
  intros Hother.
  destruct (unset req_channel) eqn:Hch.
  { unfold ServerJs.post_unsubscribe. rewrite Hch. reflexivity. }
  apply unset_false in Hch as (c & -> & Hne).
  destruct (ServerJs.subs st !! c) as [e|] eqn:Hin.
  - rewrite (ServerJs_unsubscribe_found w c e st) by done.
    destruct (cancel_error w _); [done|].
    unfold final_state. simpl. apply lookup_delete_ne. congruence.
  - by rewrite ServerJs_unsubscribe_not_found.
Qed.

Lemma PushService_subscribe_frame (w : world) (cfg : env) (c c' : string)
    (sig ts : JS.value) (st : PushService.state) :
  c ≠ c' →
  PushService.active (final_state (PushService.subscribeToChannel w cfg c sig ts st))
  !! c' = PushService.active st !! c'.
Proof.
  intros Hother.
  destruct (PushService.active st !! c) as [e|] eqn:Hin.
  - by rewrite (PushService_subscribe_already w cfg c sig ts e st).
  - destruct (PushService.await_confirmation w (PushService.clients st)) eqn:Hwait.
    + rewrite PushService_subscribe_confirmed by done.
      unfold final_state. simpl. by apply lookup_insert_ne.
    + by rewrite PushService_subscribe_timeout.
Qed.

Lemma PushService_unsubscribe_frame (w : world) (c c' : string)
    (st : PushService.state) :
  c ≠ c' →
  PushService.active (final_state (PushService.unsubscribeFromChannel w c st)) !! c'
  = PushService.active st !! c'.
Proof.
  intros Hother.
  destruct (PushService.active st !! c) as [e|] eqn:Hin.
  - rewrite (PushService_unsubscribe_found w c e st) by done.
    unfold final_state. simpl. by apply lookup_delete_ne.
  - by rewrite PushService_unsubscribe_not_found.
Qed.

Lemma PushService_post_subscribe_frame (w : world) (cfg : env)
    (req_push : option push) (c' : string) (st : PushService.state) :
  (∀ p, req_push = Some p → channel p ≠ Some c') →
  PushService.active (final_state (PushService.post_subscribe w cfg req_push st))
  !! c' = PushService.active st !! c'.
Proof.
  intros Hother. destruct req_push as [p|]; [|reflexivity].
  specialize (Hother p eq_refl).
  destruct (unset (channel p) || negb (JS.truthy (signature p))
            || negb (JS.truthy (timestamp p))) eqn:Hvalid.
  { unfold PushService.post_subscribe. simpl. rewrite Hvalid. reflexivity. }
  apply orb_false_elim in Hvalid as [Hvalid Hts].
  apply orb_false_elim in Hvalid as [Hch Hsig].
  apply negb_false_iff in Hts, Hsig.
  apply unset_false in Hch as (c & Hc & Hne).
  destruct p as [pc psig pts pexp]. simpl in *. subst pc.
  rewrite PushService_post_subscribe_valid by done.
  assert (c ≠ c') as Hcc by congruence.
  pose proof (PushService_subscribe_frame w cfg c c' psig pts st Hcc) as Hframe.
  unfold try_catch, bind, ret.
  destruct (PushService.subscribeToChannel w cfg c psig pts st) as [[s1 t1] [a|e]];
    exact Hframe.
Qed.

Lemma PushService_post_unsubscribe_frame (w : world) (req_channel : option string)
    (c' : string) (st : PushService.state) :
  req_channel ≠ Some c' →
  PushService.active (final_state (PushService.post_unsubscribe w req_channel st))
  !! c' = PushService.active st !! c'.
Proof.
  intros Hother.
  destruct (unset req_channel) eqn:Hch.
  { unfold PushService.post_unsubscribe. rewrite Hch. reflexivity. }
  apply unset_false in Hch as (c & -> & Hne).
  assert (c ≠ c') as Hcc by congruence.
  pose proof (PushService_unsubscribe_frame w c c' st Hcc) as Hframe.
  unfold PushService.post_unsubscribe. simpl.
  destruct (String.eqb c "") eqn:E; [by rewrite string_eqb_true in E|].
  unfold try_catch, bind, ret.
  destruct (PushService.unsubscribeFromChannel w c st) as [[s1 t1] [a|e]];
    exact Hframe.
Qed.

(** C9: subscribe and unsubscribe for a channel leave the entry of every
    other channel as it was, in the routes of [src/server.js], in
    [subscribeToChannel] and [unsubscribeFromChannel], and in the routes that
    call these; the webhook, the health endpoints and the bus callbacks
    leave the whole state as it was. *)
Theorem registry_touched_only_at_the_channel (w : world) (cfg : env)
    (c c' : string) :
  c ≠ c' →
  (∀ p st, channel p = Some c →
     ServerJs.subs (final_state (ServerJs.post_subscribe w (Some p) st)) !! c'
     = ServerJs.subs st !! c')
  ∧ (∀ st,
       ServerJs.subs (final_state (ServerJs.post_unsubscribe w (Some c) st)) !! c'
       = ServerJs.subs st !! c')
  ∧ (∀ sig ts st,
       PushService.active
         (final_state (PushService.subscribeToChannel w cfg c sig ts st)) !! c'
       = PushService.active st !! c')
  ∧ (∀ st,
       PushService.active
         (final_state (PushService.unsubscribeFromChannel w c st)) !! c'
       = PushService.active st !! c')
  ∧ (∀ p st, channel p = Some c →
       PushService.active
         (final_state (PushService.post_subscribe w cfg (Some p) st)) !! c'
       = PushService.active st !! c')
  ∧ (∀ st,
       PushService.active
         (final_state (PushService.post_unsubscribe w (Some c) st)) !! c'
       = PushService.active st !! c')
  ∧ (∀ req sig st, final_state (ServerJs.post_podio_push w cfg req sig st) = st)
  ∧ (∀ st, final_state (ServerJs.get_health st) = st)
  ∧ (∀ st, final_state (PushService.get_health cfg st) = st)
  ∧ (∀ ch message st, final_state (ServerJs.on_message w cfg ch message st) = st)
  ∧ (∀ ch message st, final_state (PushService.on_message w cfg ch message st) = st).
Proof.
  intros Hother. repeat split.
  - intros p st Hc. apply ServerJs_subscribe_frame.
    intros ? [= <-]. congruence.
  - intros st. apply ServerJs_unsubscribe_frame. congruence.
  - intros. by apply PushService_subscribe_frame.
  - intros. by apply PushService_unsubscribe_frame.
  - intros p st Hc. apply PushService_post_subscribe_frame.
    intros ? [= <-]. congruence.
  - intros st. apply PushService_post_unsubscribe_frame. congruence.
  - intros. apply ServerJs_push_keeps_state.
  - intros. by rewrite ServerJs_on_message_run.
  - intros. by rewrite PushService_on_message_run.
Qed.

Lemma registry_touched_only_at_the_channel_witness :
  ServerJs.subs
    (final_state (ServerJs.post_unsubscribe Fixture.stormy (Some "/task/2")
                    Fixture.subs1)) !! "/task/1"
  = ServerJs.subs Fixture.subs1 !! "/task/1"
  ∧ PushService.active
      (final_state (PushService.subscribeToChannel Fixture.calm Fixture.cfg "/task/2"
                      (JS.Str "abc") (JS.Num 1700000000) Fixture.active1)) !! "/task/1"
    = PushService.active Fixture.active1 !! "/task/1".
Proof.
  pose proof (registry_touched_only_at_the_channel Fixture.stormy Fixture.cfg
                "/task/2" "/task/1" ltac:(discriminate)) as (_ & H2 & _).
  pose proof (registry_touched_only_at_the_channel Fixture.calm Fixture.cfg
                "/task/2" "/task/1" ltac:(discriminate)) as (_ & _ & H3 & _).
  split; [apply H2 | apply H3].
Defined.

(** * Further properties of the code *)

(** ** Requests that lack a field *)

(** X1: a /subscribe request without [push], or whose channel, signature or
    timestamp is absent or falsy, and an /unsubscribe request without a
    channel, are answered 400 with the route's error text, make no call and
    leave the state as it was; in both servers, and in the stub. *)
Theorem requests_lacking_a_field_are_400_without_effect (w : world) (cfg : env)
    (req_push : option push) (req_channel : option string) :
  (∀ p, req_push = Some p →
        unset (channel p) = true ∨ JS.truthy (signature p) = false
        ∨ JS.truthy (timestamp p) = false) →
  unset req_channel = true →
  (∀ st, ServerJs.post_subscribe w req_push st
         = (st, [], Normal (json 400 (JS.Obj [("error",
              JS.Str "Missing push.channel, push.signature, or push.timestamp")]))))
  ∧ (∀ st, PushService.post_subscribe w cfg req_push st
           = (st, [], Normal (json 400 (JS.Obj [("error",
                JS.Str "Missing required fields: push.channel, push.signature, push.timestamp")]))))
  ∧ PushBlob.post_subscribe req_push tt
    = (tt, [], Normal (json 400 (JS.Obj [("error",
         JS.Str "Invalid payload: missing push.channel/timestamp/signature")])))
  ∧ (∀ st, ServerJs.post_unsubscribe w req_channel st
           = (st, [], Normal (json 400 (JS.Obj [("error", JS.Str "Missing channel")]))))
  ∧ (∀ st, PushService.post_unsubscribe w req_channel st
           = (st, [], Normal (json 400 (JS.Obj [("error",
                JS.Str "Missing body.channel")])))).
Proof.
  intros Hpush Hchannel.
  assert (∀ p, req_push = Some p →
               unset (channel p) || negb (JS.truthy (signature p))
               || negb (JS.truthy (timestamp p)) = true) as Hbad.
  { intros p Hp. destruct (Hpush p Hp) as [H|[H|H]]; rewrite H; simpl;
      [done | by rewrite orb_true_r | by rewrite orb_true_r]. }
  repeat split.
  - intros st. unfold ServerJs.post_subscribe.
    destruct req_push as [p|]; [|reflexivity]. by rewrite (Hbad p eq_refl).
  - intros st. unfold PushService.post_subscribe.
    destruct req_push as [p|]; [|reflexivity]. simpl. by rewrite (Hbad p eq_refl).
  - unfold PushBlob.post_subscribe.
    destruct req_push as [p|]; [|reflexivity].
    destruct (Hpush p eq_refl) as [H|[H|H]]; rewrite H; simpl;
      [done | by rewrite orb_true_r | ].
    by destruct (unset (channel p)).
  - intros st. unfold ServerJs.post_unsubscribe. by rewrite Hchannel.
  - intros st. unfold PushService.post_unsubscribe. by rewrite Hchannel.
Qed.

Lemma requests_lacking_a_field_are_400_without_effect_witness :
  status <$> outcome_value
    (outcome (ServerJs.post_subscribe Fixture.calm
                (Some {| channel := Some "/task/1"; signature := JS.Str "";
                         timestamp := JS.Num 1700000000;
                         expires_in := JS.Undefined |}) Fixture.subs1))
  = Some 400.
Proof.
  destruct (requests_lacking_a_field_are_400_without_effect Fixture.calm Fixture.cfg
              (Some {| channel := Some "/task/1"; signature := JS.Str "";
                       timestamp := JS.Num 1700000000;
                       expires_in := JS.Undefined |}) None) as [H _].
  - intros p [= <-]. right. left. reflexivity.
  - reflexivity.
  - by rewrite H.
Defined.

(** ** Subscribe and unsubscribe in sequence *)

Lemma final_state_of {S A} (s : S) (t : list call) (o : completion A) :
  final_state (s, t, o) = s.
Proof. reflexivity. Qed.

(** X2: in [src/server.js], after a first subscribe for a channel, a later
    subscribe for it - whatever credentials and expiry it brings - is
    answered [exists] with the creation time of the first, constructs no
    client and leaves the entry of the first as it is: one client was
    constructed for the two requests. *)
Theorem later_subscribe_keeps_the_first (w1 w2 : world) (p1 p2 : push)
    (ch : string) (st : ServerJs.state) :
  ch ≠ "" → channel p1 = Some ch → channel p2 = Some ch →
  JS.truthy (signature p1) = true → JS.truthy (timestamp p1) = true →
  JS.truthy (signature p2) = true → JS.truthy (timestamp p2) = true →
  ServerJs.subs st !! ch = None →
  let r1 := ServerJs.post_subscribe w1 (Some p1) st in
  let r2 := ServerJs.post_subscribe w2 (Some p2) (final_state r1) in
  outcome r2 = Normal (json 200 (JS.Obj [("status", JS.Str "exists");
                                         ("channel", JS.Str ch);
                                         ("expires_in", expires_in p2);
                                         ("createdAt", JS.Str (now w1))]))
  ∧ calls r2 = []
  ∧ final_state r2 = final_state r1
  ∧ ServerJs.subs (final_state r2) !! ch
    = Some {| ServerJs.client := ServerJs.clients st; ServerJs.createdAt := now w1 |}
  ∧ ServerJs.clients (final_state r2) = S (ServerJs.clients st).
Proof.
  intros Hne Hc1 Hc2 Hs1 Ht1 Hs2 Ht2 Hfresh r1 r2. subst r2 r1.
  rewrite (ServerJs_subscribe_fresh w1 p1 ch st) by done.
  rewrite !final_state_of.
  erewrite (ServerJs_subscribe_exists w2 p2 ch);
    [|done|done|done|done|apply lookup_insert_eq].
  rewrite final_state_of. unfold outcome, calls. simpl.
  repeat split. apply lookup_insert_eq.
Qed.

Lemma later_subscribe_keeps_the_first_witness :
  let renewed := {| channel := Some "/task/1"; signature := JS.Str "def";
                    timestamp := JS.Num 1700003600; expires_in := JS.Num 21600 |} in
  let r1 := ServerJs.post_subscribe Fixture.calm (Some Fixture.task1) Fixture.subs0 in
  let r2 := ServerJs.post_subscribe Fixture.stormy (Some renewed) (final_state r1) in
  calls r2 = [] ∧ final_state r2 = final_state r1.
Proof.
  intros renewed r1 r2.
  destruct (later_subscribe_keeps_the_first Fixture.calm Fixture.stormy Fixture.task1
              renewed "/task/1" Fixture.subs0 ltac:(discriminate)
              eq_refl eq_refl eq_refl eq_refl eq_refl eq_refl eq_refl)
    as (_ & Hcalls & Hstate & _).
  by split.
Defined.

(** X3: subscribe then unsubscribe is a round trip on the registry.  In
    [src/server.js], when cancel does not throw, the registry is again what
    it was before the subscribe, and the one teardown call cancels the
    subscription of the client that the subscribe constructed.  In
    [src/unnamed/part_000], once the bus confirmed in time, the registry is
    again what it was, and cancel and disconnect go to the client that
    [subscribeToChannel] constructed, whatever they throw. *)
Theorem subscribe_unsubscribe_round_trip (w1 w2 : world) (cfg : env) (ch : string)
    (sig ts exp : JS.value) :
  ch ≠ "" → JS.truthy sig = true → JS.truthy ts = true →
  let p := {| channel := Some ch; signature := sig; timestamp := ts;
              expires_in := exp |} in
  (∀ st, ServerJs.subs st !! ch = None →
     cancel_error w2 (ServerJs.clients st) = None →
     let r1 := ServerJs.post_subscribe w1 (Some p) st in
     let r2 := ServerJs.post_unsubscribe w2 (Some ch) (final_state r1) in
     outcome r2 = Normal (json 200 (JS.Obj [("status", JS.Str "unsubscribed");
                                            ("channel", JS.Str ch)]))
     ∧ calls r2 = [BusCancel (ServerJs.clients st)]
     ∧ ServerJs.subs (final_state r2) = ServerJs.subs st)
  ∧ (∀ st t, PushService.active st !! ch = None →
       confirmed_after w1 (PushService.clients st) = Some t →
       (t < PushService.confirmation_timeout)%N →
       let r1 := PushService.subscribeToChannel w1 cfg ch sig ts st in
       let r2 := PushService.unsubscribeFromChannel w2 ch (final_state r1) in
       outcome r2 = Normal (JS.Obj [("status", JS.Str "unsubscribed");
                                    ("channel", JS.Str ch)])
       ∧ calls r2 = [BusCancel (PushService.clients st);
                     BusDisconnect (PushService.clients st)]
       ∧ PushService.active (final_state r2) = PushService.active st).
Proof.
  intros Hne Hsig Hts p. split.
  - intros st Hfresh Hcancel r1 r2. subst r2 r1.
    rewrite (ServerJs_subscribe_fresh w1 p ch st) by done.
    rewrite !final_state_of.
    erewrite (ServerJs_unsubscribe_found w2 ch); [|done|apply lookup_insert_eq].
    simpl. rewrite Hcancel, final_state_of. unfold outcome, calls. simpl.
    repeat split. by apply delete_insert_id.
  - intros st t Hfresh Ht Hlt r1 r2. subst r2 r1.
    rewrite PushService_subscribe_confirmed
      by eauto using await_confirmation_in_time.
    rewrite !final_state_of.
    erewrite (PushService_unsubscribe_found w2 ch); [|apply lookup_insert_eq].
    rewrite final_state_of. unfold outcome, calls. simpl.
    repeat split. by apply delete_insert_id.
Qed.

Lemma subscribe_unsubscribe_round_trip_witness :
  PushService.active
    (final_state
       (PushService.unsubscribeFromChannel Fixture.stormy "/task/2"
          (final_state (PushService.subscribeToChannel Fixture.calm Fixture.cfg
                          "/task/2" (JS.Str "abc") (JS.Num 1700000000)
                          Fixture.active1))))
  = PushService.active Fixture.active1.
Proof.
  destruct (subscribe_unsubscribe_round_trip Fixture.calm Fixture.stormy Fixture.cfg
              "/task/2" (JS.Str "abc") (JS.Num 1700000000) JS.Undefined
              ltac:(discriminate) eq_refl eq_refl) as [_ H].
  apply (H Fixture.active1 120%N eq_refl eq_refl eq_refl).
Defined.

(** X4: [unsubscribeFromChannel] settles a channel for good: whatever the
    first call found and whatever teardown threw, a second call for the
    channel finds no entry, answers [not_found], makes no call and changes
    nothing. *)
Theorem unsubscribeFromChannel_twice (w1 w2 : world) (ch : string)
    (st : PushService.state) :
  let r1 := PushService.unsubscribeFromChannel w1 ch st in
  PushService.unsubscribeFromChannel w2 ch (final_state r1)
  = (final_state r1, [], Normal (JS.Obj [("status", JS.Str "not_found");
                                         ("channel", JS.Str ch)])).
Proof.
  intros r1. subst r1. apply PushService_unsubscribe_not_found.
  destruct (PushService.active st !! ch) as [e|] eqn:Hin.
  - rewrite (PushService_unsubscribe_found w1 ch e st) by done.
    unfold final_state. simpl. apply lookup_delete_eq.
  - by rewrite PushService_unsubscribe_not_found.
Qed.

(** X5: in [src/server.js] an unsubscribe that failed can be tried again.
    When cancel throws, the route answers 500 with the message and leaves
    the state as it was; a later unsubscribe for the channel, met by a
    cancel that works, removes the entry and answers [unsubscribed]. *)
Theorem failed_unsubscribe_can_be_retried (w1 w2 : world) (ch msg : string)
    (e : ServerJs.entry) (st : ServerJs.state) :
  ch ≠ "" → ServerJs.subs st !! ch = Some e →
  cancel_error w1 (ServerJs.client e) = Some msg →
  cancel_error w2 (ServerJs.client e) = None →
  let r1 := ServerJs.post_unsubscribe w1 (Some ch) st in
  let r2 := ServerJs.post_unsubscribe w2 (Some ch) (final_state r1) in
  r1 = (st, [BusCancel (ServerJs.client e)],
        Normal (json 500 (JS.Obj [("error", JS.Str msg)])))
  ∧ outcome r2 = Normal (json 200 (JS.Obj [("status", JS.Str "unsubscribed");
                                           ("channel", JS.Str ch)]))
  ∧ ServerJs.subs (final_state r2) = delete ch (ServerJs.subs st).
Proof.
  intros Hne Hin Hthrow Hok r1 r2. subst r2 r1.
  rewrite (ServerJs_unsubscribe_found w1 ch e st), Hthrow by done.
  rewrite !final_state_of.
  rewrite (ServerJs_unsubscribe_found w2 ch e st), Hok by done.
  by repeat split.
Qed.

Lemma failed_unsubscribe_can_be_retried_witness :
  ServerJs.subs
    (final_state
       (ServerJs.post_unsubscribe Fixture.calm (Some "/task/1")
          (final_state (ServerJs.post_unsubscribe Fixture.stormy (Some "/task/1")
                          Fixture.subs1))))
  = delete "/task/1" (ServerJs.subs Fixture.subs1).
Proof.
  apply (failed_unsubscribe_can_be_retried Fixture.stormy Fixture.calm "/task/1"
           "transport down" _ Fixture.subs1 ltac:(discriminate)
           eq_refl eq_refl eq_refl).
Defined.

(** ** The health endpoint of [src/unnamed/part_000] *)

Lemma unsubscribeFromChannel_gone (w : world) (ch : string) (st : PushService.state) :
  PushService.active (final_state (PushService.unsubscribeFromChannel w ch st)) !! ch
  = None.
Proof.
  destruct (PushService.active st !! ch) as [e|] eqn:Hin.
  - rewrite (PushService_unsubscribe_found w ch e st) by done.
    rewrite final_state_of. simpl. apply lookup_delete_eq.
  - by rewrite PushService_unsubscribe_not_found.
Qed.

(** X6: GET /health answers 200 and lists under [subscriptions] exactly the
    channels that have a registry entry, each once; it makes no call and
    changes nothing.  A channel that was just unsubscribed is not listed. *)
Theorem health_lists_the_registry (cfg : env) (st : PushService.state) :
  (∃ listed,
     PushService.get_health cfg st
     = (st, [], Normal (json 200 (JS.Obj
          [("ok", JS.Bool true);
           ("env", JS.Str (default "production" (NODE_ENV cfg)));
           ("cometd", JS.Str (PushService.cometd cfg));
           ("subscriptions", JS.Arr (JS.Str <$> listed))])))
     ∧ NoDup listed
     ∧ ∀ ch, ch ∈ listed ↔ is_Some (PushService.active st !! ch))
  ∧ (∀ w ch answer items,
       outcome (PushService.get_health cfg
                  (final_state (PushService.unsubscribeFromChannel w ch st)))
       = Normal answer →
       JS.get (body answer) "subscriptions" = JS.Arr items →
       JS.Str ch ∉ items).
Proof.
  assert (∀ st' ch, ch ∈ (map_to_list (PushService.active st')).*1
                    ↔ is_Some (PushService.active st' !! ch)) as Hlisted.
  { intros st' ch. rewrite list_elem_of_fmap. split.
    - intros [[k e] [-> Hin]]. apply elem_of_map_to_list in Hin. by exists e.
    - intros [e He]. exists (ch, e). split; [done|]. by apply elem_of_map_to_list. }
  split.
  - exists (map_to_list (PushService.active st)).*1.
    split; [reflexivity|]. split; [apply NoDup_fst_map_to_list|]. apply Hlisted.
  - intros w ch answer items Hrun Hitems.
    unfold PushService.get_health, outcome in Hrun. simpl in Hrun.
    injection Hrun as <-. simpl in Hitems. injection Hitems as <-.
    intros Hin. apply list_elem_of_fmap in Hin as [c [[= <-] Hin]].
    apply Hlisted in Hin as [e He].
    pose proof (unsubscribeFromChannel_gone w ch st) as Hgone.
    congruence.
Qed.

(** ** Confirmation that comes late, or twice *)

(** X7: a subscribe that times out leaves its client behind.  The calls of
    [subscribeToChannel] are the construction of the client and its
    subscribe, nothing tears the client down; an unsubscribe for the channel
    then finds no entry and makes no call; and a later subscribe for the
    channel, confirmed in time, constructs a second client and registers
    that one. *)
Theorem timed_out_subscribe_leaves_its_client (w1 w2 w3 : world) (cfg : env)
    (ch : string) (sig ts : JS.value) (st : PushService.state) :
  PushService.active st !! ch = None →
  (∀ t, confirmed_after w1 (PushService.clients st) = Some t →
        (PushService.confirmation_timeout ≤ t)%N) →
  let h := PushService.clients st in
  let r1 := PushService.subscribeToChannel w1 cfg ch sig ts st in
  calls r1 = [NewClient h (PushService.cometd cfg); BusSubscribe h ch]
  ∧ PushService.unsubscribeFromChannel w2 ch (final_state r1)
    = (final_state r1, [], Normal (JS.Obj [("status", JS.Str "not_found");
                                           ("channel", JS.Str ch)]))
  ∧ (∀ t, confirmed_after w3 (S h) = Some t →
          (t < PushService.confirmation_timeout)%N →
          let r3 := PushService.subscribeToChannel w3 cfg ch sig ts (final_state r1) in
          calls r3 = [NewClient (S h) (PushService.cometd cfg); BusSubscribe (S h) ch]
          ∧ PushService.active (final_state r3) !! ch
            = Some {| PushService.client := S h |}).
Proof.
  intros Hfresh Hlate h r1. subst r1.
  rewrite PushService_subscribe_timeout by eauto using await_confirmation_late.
  rewrite !final_state_of. split; [reflexivity|]. split.
  - by apply PushService_unsubscribe_not_found.
  - intros t Ht Hlt r3. subst r3.
    rewrite PushService_subscribe_confirmed;
      [|done|by apply (await_confirmation_in_time w3 (S h) t)].
    rewrite final_state_of. split; [reflexivity|]. simpl. apply lookup_insert_eq.
Qed.

Lemma timed_out_subscribe_leaves_its_client_witness :
  calls (PushService.subscribeToChannel Fixture.stormy Fixture.cfg "/task/2"
           (JS.Str "abc") (JS.Num 1700000000) Fixture.active1)
  = [NewClient 1 "https://podio.com:443/cometd"; BusSubscribe 1 "/task/2"].
Proof.
  apply (timed_out_subscribe_leaves_its_client Fixture.stormy Fixture.calm
           Fixture.calm Fixture.cfg "/task/2" (JS.Str "abc") (JS.Num 1700000000)
           Fixture.active1 eq_refl).
  intros t Ht. discriminate Ht.
Defined.



(** ** The relay of [src/unnamed/part_000] *)



(** ** One client per channel, over time *)

Lemma ServerJs_subscribe_state (w : world) (req_push : option push)
    (st : ServerJs.state) :
  final_state (ServerJs.post_subscribe w req_push st) = st
  ∨ ∃ ch, ServerJs.subs st !! ch = None
          ∧ final_state (ServerJs.post_subscribe w req_push st)
            = {| ServerJs.subs :=
                   <[ch := {| ServerJs.client := ServerJs.clients st;
                              ServerJs.createdAt := now w |}]> (ServerJs.subs st);
                 ServerJs.clients := S (ServerJs.clients st) |}.
Proof.
  destruct req_push as [p|]; [|by left].
  destruct (unset (channel p) || negb (JS.truthy (signature p))
            || negb (JS.truthy (timestamp p))) eqn:Hvalid.
  { left. unfold ServerJs.post_subscribe. by rewrite Hvalid. }
  apply orb_false_elim in Hvalid as [Hvalid Hts].
  apply orb_false_elim in Hvalid as [Hch Hsig].
  apply negb_false_iff in Hts, Hsig.
  apply unset_false in Hch as (c & Hc & Hne).
  destruct (ServerJs.subs st !! c) as [e|] eqn:Hin.
  - left. by rewrite (ServerJs_subscribe_exists w p c e st).
  - right. exists c. split; [done|].
    by rewrite (ServerJs_subscribe_fresh w p c st).
Qed.

Lemma ServerJs_unsubscribe_state (w : world) (req_channel : option string)
    (st : ServerJs.state) :
  final_state (ServerJs.post_unsubscribe w req_channel st) = st
  ∨ ∃ ch, final_state (ServerJs.post_unsubscribe w req_channel st)
          = ServerJs.set_subs st (delete ch (ServerJs.subs st)).
Proof.
  destruct (unset req_channel) eqn:Hch.
  { left. unfold ServerJs.post_unsubscribe. by rewrite Hch. }
  apply unset_false in Hch as (c & -> & Hne).
  destruct (ServerJs.subs st !! c) as [e|] eqn:Hin.
  - rewrite (ServerJs_unsubscribe_found w c e st) by done.
    destruct (cancel_error w _); [by left|]. right. by exists c.
  - left. by rewrite ServerJs_unsubscribe_not_found.
Qed.

Lemma ServerJsRun_step_dedicated (cfg : env) (st : ServerJs.state)
    (wr : world * ServerJsRun.request) :
  ServerJsRun.dedicated st → ServerJsRun.dedicated (ServerJsRun.step cfg st wr).
Proof.
  intros [Hbound Hinj]. destruct wr as [w r]. unfold ServerJsRun.step. simpl.
  destruct r as [|b sig|p|c|c m|c b]; try done.
  - by rewrite ServerJs_push_keeps_state.
  - destruct (ServerJs_subscribe_state w p st) as [->|(ch & Hfresh & ->)]; [done|].
    split; simpl.
    + intros ch' e. destruct (decide (ch = ch')) as [<-|Hne].
      * rewrite lookup_insert_eq. intros [= <-]. simpl. lia.
      * rewrite lookup_insert_ne by done. intros H%Hbound. lia.
    + intros ch1 ch2 e1 e2.
      destruct (decide (ch = ch1)) as [<-|Hne1], (decide (ch = ch2)) as [<-|Hne2];
        rewrite ?lookup_insert_eq, ?lookup_insert_ne by done; try done.
      * intros [= <-] H2%Hbound. simpl. lia.
      * intros H1%Hbound [= <-]. simpl. lia.
      * apply Hinj.
  - destruct (ServerJs_unsubscribe_state w c st) as [->|(ch & ->)]; [done|].
    split; simpl.
    + intros ch' e H%lookup_delete_Some. apply (Hbound ch' e), H.
    + intros ch1 ch2 e1 e2 H1%lookup_delete_Some H2%lookup_delete_Some.
      apply Hinj; [apply H1 | apply H2].
  - by rewrite ServerJs_on_message_run.
Qed.

(** X10: however requests, bus messages and settled subscriptions follow one
    another in [src/server.js], starting from the empty registry and
    whatever the outside answers, every registry entry holds a client that
    was constructed, and no client serves two channels. *)
Theorem ServerJs_keeps_one_client_per_channel (cfg : env)
    (rs : list (world * ServerJsRun.request)) :
  ServerJsRun.dedicated (ServerJsRun.run cfg rs ServerJsRun.initial).
Proof.
  unfold ServerJsRun.run.
  induction rs as [|wr rs IH] using rev_ind.
  - split; simpl.
    + intros ch e H. by rewrite lookup_empty in H.
    + intros ch1 ch2 e1 e2 H. by rewrite lookup_empty in H.
  - rewrite foldl_snoc. by apply ServerJsRun_step_dedicated.
Qed.

Lemma not_in_delete {A} (l : list A) (i : nat) (x : A) :
  NoDup l → l !! i = Some x → x ∉ delete i l.
Proof.
  intros Hnd Hi. rewrite <- (take_drop_middle l i x Hi) in Hnd.
  apply NoDup_app in Hnd as (_ & Hleft & Hright).
  apply NoDup_cons in Hright as [Hright _].
  rewrite delete_take_drop. intros [H|H]%elem_of_app.
  - apply (Hleft x H). by left.
  - by apply Hright.
Qed.

Lemma PushServiceRun_step_dedicated (cfg : env) (sys : PushServiceRun.system)
    (we : world * PushServiceRun.event) :
  PushServiceRun.dedicated sys → PushServiceRun.dedicated (PushServiceRun.step cfg sys we).
Proof.
  intros (Hbound & Hinj & Hwait & Hnd). destruct sys as [st waiting].
  destruct we as [w ev]. unfold PushServiceRun.step. simpl in *.
  destruct ev as [c sig ts|i|c| |c m].
  - destruct (PushService.active st !! c) as [e|] eqn:Hin.
    + unfold PushService.subscribe_start. run. rewrite Hin. simpl.
      unfold PushServiceRun.dedicated. simpl. by split_and!.
    + rewrite PushService_subscribe_start_fresh by done.
      unfold PushServiceRun.dedicated. simpl. split_and!.
      * intros ch e H%Hbound. lia.
      * apply Hinj.
      * intros h H. rewrite fmap_app in H. apply elem_of_app in H as [H|H].
        -- destruct (Hwait h H) as [Hlt Hout]. split; [lia|done].
        -- apply list_elem_of_singleton in H as ->. simpl. split; [lia|].
           intros ch e He%Hbound. lia.
      * rewrite fmap_app. apply NoDup_app. split; [done|]. split.
        -- intros h Hh ->%list_elem_of_singleton. apply Hwait in Hh as [Hh _].
           simpl in Hh. lia.
        -- apply NoDup_singleton.
  - destruct (waiting !! i) as [[c h]|] eqn:Hi;
      [|unfold PushServiceRun.dedicated; simpl; by split_and!].
    assert (h ∈ waiting.*2) as Hh.
    { apply list_elem_of_lookup. exists i. by rewrite list_lookup_fmap, Hi. }
    assert (∀ h', h' ∈ (delete i waiting).*2 → h' ∈ waiting.*2 ∧ h' ≠ h) as Hrest.
    { intros h' Hin. rewrite list_fmap_delete in Hin. split.
      - eapply elem_of_sublist; [done|apply sublist_delete].
      - intros ->. revert Hin. apply not_in_delete; [done|].
        by rewrite list_lookup_fmap, Hi. }
    assert (NoDup (delete i waiting).*2) as Hnd'.
    { rewrite list_fmap_delete. eapply sublist_NoDup; [done|apply sublist_delete]. }
    unfold PushService.subscribe_resume.
    destruct (PushService.await_confirmation w h).
    + run. unfold PushServiceRun.dedicated. simpl. split_and!; [| | |done].
      * intros ch e. destruct (decide (c = ch)) as [<-|Hne].
        -- rewrite lookup_insert_eq. intros [= <-]. simpl. by apply Hwait.
        -- rewrite lookup_insert_ne by done. apply Hbound.
      * intros ch1 ch2 e1 e2.
        destruct (decide (c = ch1)) as [<-|Hne1], (decide (c = ch2)) as [<-|Hne2];
          rewrite ?lookup_insert_eq, ?lookup_insert_ne by done; try done.
        -- intros [= <-] H2 Heq. simpl in Heq.
           destruct (Hwait h Hh) as [_ Hout]. by destruct (Hout ch2 e2 H2).
        -- intros H1 [= <-] Heq. simpl in Heq.
           destruct (Hwait h Hh) as [_ Hout]. by destruct (Hout ch1 e1 H1).
        -- apply Hinj.
      * intros h' [H Hne]%Hrest. split; [by apply Hwait|].
        intros ch e. destruct (decide (c = ch)) as [<-|Hnc].
        -- rewrite lookup_insert_eq. by intros [= <-].
        -- rewrite lookup_insert_ne by done. by apply Hwait.
    + run. unfold PushServiceRun.dedicated. simpl. split_and!; [done|done| |done].
      intros h' [H _]%Hrest. by apply Hwait.
  - destruct (PushService.active st !! c) as [e|] eqn:Hin.
    + rewrite (PushService_unsubscribe_found w c e st) by done.
      rewrite final_state_of. unfold PushServiceRun.dedicated. simpl.
      split_and!; [| | |done].
      * intros ch e' H%lookup_delete_Some. apply (Hbound ch e'), H.
      * intros ch1 ch2 e1 e2 H1%lookup_delete_Some H2%lookup_delete_Some.
        apply Hinj; [apply H1 | apply H2].
      * intros h H. split; [by apply Hwait|].
        intros ch e' He%lookup_delete_Some.
        apply (proj2 (Hwait h H) ch e'), He.
    + rewrite PushService_unsubscribe_not_found by done.
      unfold PushServiceRun.dedicated. simpl. by split_and!.
  - unfold PushServiceRun.dedicated. simpl. by split_and!.
  - rewrite PushService_on_message_run.
    unfold PushServiceRun.dedicated. simpl. by split_and!.
Qed.

(** X11: however subscribes, their confirmations, unsubscribes, health
    checks and bus messages interleave in [src/unnamed/part_000], starting
    from the empty registry and whatever the outside answers, every client
    in the registry or awaiting its confirmation was constructed, no client
    serves two channels of the registry, and a client that awaits its
    confirmation is in no entry. *)
Theorem PushService_keeps_one_client_per_channel (cfg : env)
    (es : list (world * PushServiceRun.event)) :
  PushServiceRun.dedicated (PushServiceRun.run cfg es PushServiceRun.initial).
Proof.
  unfold PushServiceRun.run.
  induction es as [|we es IH] using rev_ind.
  - unfold PushServiceRun.dedicated. simpl. split_and!.
    + intros ch e H. by rewrite lookup_empty in H.
    + intros ch1 ch2 e1 e2 H. by rewrite lookup_empty in H.
    + by intros h H%elem_of_nil.
    + apply NoDup_nil_2.
  - rewrite foldl_snoc. by apply PushServiceRun_step_dedicated.
Qed.

(** ** The webhooks on any body *)

(** X12: the webhook of [src/server.js] answers every request, whatever the
    body - absent, [null], a primitive, an array, any object - and whatever
    the header and the configuration: it never throws, the answer is 200 or
    401, and the state stays as it was.  A request whose body is absent or
    [null] is answered like one with the empty object. *)
Theorem ServerJs_webhook_always_answers (w : world) (cfg : env) (req : JS.value)
    (sig : option string) (st : ServerJs.state) :
  (∃ answer,
     outcome (ServerJs.post_podio_push w cfg req sig st) = Normal answer
     ∧ (status answer = 200 ∨ status answer = 401)
     ∧ final_state (ServerJs.post_podio_push w cfg req sig st) = st)
  ∧ ServerJs.post_podio_push w cfg JS.Undefined sig st
    = ServerJs.post_podio_push w cfg (JS.Obj []) sig st
  ∧ ServerJs.post_podio_push w cfg JS.Null sig st
    = ServerJs.post_podio_push w cfg (JS.Obj []) sig st.
Proof.
  split; [|by split].
  destruct (JS.is_str (JS.get (JS.or_else req (JS.Obj [])) "type")
              "subscription_verification"
            && JS.truthy (JS.get (JS.or_else req (JS.Obj [])) "challenge")) eqn:E.
  - unfold ServerJs.post_podio_push. rewrite E.
    eexists. split; [reflexivity|]. split; [by left|reflexivity].
  - rewrite ServerJs_push_regular by done.
    destruct (unset sig); [|destruct (String.eqb _ _)];
      (eexists; split; [reflexivity|]; split; [|reflexivity]); simpl; auto.
Qed.

Lemma Listener_forwardToDebug_run {S} (w : world) (cfg : env)
    (payload : JS.value) (s : S) :
  Listener.forwardToDebug w cfg payload s
  = (s, attempt w (DEBUG_WEBHOOK_URL cfg) payload, Normal tt).
Proof. apply (ServerJs_forwardToDebug_run w cfg payload s). Qed.

(** [forwardToAVA] of the listeners has no guard: it posts whenever the url
    is set, and swallows the rejection when it is not. *)
Lemma Listener_forwardToAVA_run {S} (w : world) (cfg : env)
    (payload : JS.value) (s : S) :
  Listener.forwardToAVA w cfg payload s
  = (s, match AVA_TOPIC_URL cfg with
        | Some u => [HttpPost u payload (http_ok w u payload)]
        | None => []
        end, Normal tt).
Proof.
  unfold Listener.forwardToAVA, axios_post.
  destruct (AVA_TOPIC_URL cfg) as [u|]; run; simpl; [|done].
  by destruct (http_ok w u payload).
Qed.

Lemma Listener_push_regular (w : world) (cfg : env) (req : JS.value)
    (sig : option string) (key : string) :
  req ≠ JS.Undefined → req ≠ JS.Null →
  JS.is_str (JS.get req "type") "subscription_verification" = false →
  PODIO_PUSH_SECRET cfg = Some key →
  let data := stringify w req in
  Listener.post_podio_push w cfg req sig tt
  = if unset sig then (tt, [], Normal (send 401 "Invalid signature"))
    else if String.eqb (hmac_sha1_hex w key data) (default "" sig)
         then (tt, Hmac key data
                   :: match AVA_TOPIC_URL cfg with
                      | Some u => [HttpPost u req (http_ok w u req)]
                      | None => []
                      end
                   ++ attempt w (DEBUG_WEBHOOK_URL cfg) req,
               Normal (send 200 "OK"))%list
         else (tt, [Hmac key data], Normal (send 401 "Invalid signature")).
Proof.
  intros Hdef Hnull Htype Hkey data. unfold Listener.post_podio_push.
  assert (Listener.get_prop (S := ()) req "type" = ret (JS.get req "type")) as ->
    by (by destruct req).
  unfold bind at 1. unfold ret at 1. rewrite Htype.
  destruct (unset sig) eqn:Hsig; [reflexivity|].
  unfold bind at 1.
  rewrite (Listener_validate_run w cfg req sig key tt Hkey Hdef).
  destruct sig as [s|]; [|discriminate]. simpl. fold data.
  destruct (String.eqb (hmac_sha1_hex w key data) s); simpl; [|reflexivity].
  unfold bind.
  rewrite Listener_forwardToAVA_run, Listener_forwardToDebug_run. simpl.
  by rewrite app_nil_r.
Qed.

(** X13: the webhook of the webhook-only listeners.  On a body that is absent
    or [null] it throws before any call, so no answer is sent.  With a
    secret configured, an event whose signature header is the digest of the
    body is answered 200 OK whether or not a target is configured or
    reachable; the body is posted to the AVA topic whenever its url is set,
    without the guard for an empty url that the debug mirror has, and then to
    the debug webhook; an event with another signature is answered 401 after
    the one digest, with no post. *)
Theorem Listener_webhook_behaviour (w : world) (cfg : env) (req : JS.value)
    (s key : string) :
  PODIO_PUSH_SECRET cfg = Some key → s ≠ "" →
  (∀ sig, Listener.post_podio_push w cfg JS.Undefined sig tt
          = (tt, [], Thrown "TypeError: cannot read properties")
          ∧ Listener.post_podio_push w cfg JS.Null sig tt
            = (tt, [], Thrown "TypeError: cannot read properties"))
  ∧ (req ≠ JS.Undefined → req ≠ JS.Null →
     JS.is_str (JS.get req "type") "subscription_verification" = false →
     let data := stringify w req in
     let r := Listener.post_podio_push w cfg req (Some s) tt in
     (hmac_sha1_hex w key data = s →
      outcome r = Normal (send 200 "OK")
      ∧ calls r = (Hmac key data
                   :: match AVA_TOPIC_URL cfg with
                      | Some u => [HttpPost u req (http_ok w u req)]
                      | None => []
                      end
                   ++ attempt w (DEBUG_WEBHOOK_URL cfg) req)%list)
     ∧ (hmac_sha1_hex w key data ≠ s →
        r = (tt, [Hmac key data], Normal (send 401 "Invalid signature")))).
Proof.
  intros Hkey Hs. split; [by split|].
  intros Hdef Hnull Htype data r. subst r.
  rewrite (Listener_push_regular w cfg req (Some s) key) by done. simpl.
  destruct (String.eqb s "") eqn:E; [by rewrite string_eqb_true in E|].
  fold data. split.
  - intros ->. by rewrite (proj2 (string_eqb_true _ _) eq_refl).
  - intros Hdiff. destruct (String.eqb _ s) eqn:Hd; [|done].
    by rewrite string_eqb_true in Hd.
Qed.

Lemma Listener_webhook_behaviour_witness :
  outcome (Listener.post_podio_push Fixture.stormy Fixture.cfg Fixture.item_event
             (Some "s3cret|[object Object]") tt)
  = Normal (send 200 "OK").
Proof.
  destruct (Listener_webhook_behaviour Fixture.stormy Fixture.cfg Fixture.item_event
              "s3cret|[object Object]" "s3cret" eq_refl ltac:(discriminate))
    as [_ H].
  apply H; [discriminate|discriminate|reflexivity|reflexivity].
Defined.

(** X14: when [PODIO_PUSH_SECRET] is unset or empty, the verifier of
    [src/server.js] checks against the digest under the empty key: an event
    whose signature header is that digest is accepted, relayed to the
    configured targets and answered 200 OK. *)
Theorem unset_secret_is_the_empty_key (w : world) (cfg : env) (req : JS.value)
    (st : ServerJs.state) :
  let payload := JS.or_else req (JS.Obj []) in
  let s := hmac_sha1_hex w "" (stringify w payload) in
  unset (PODIO_PUSH_SECRET cfg) = true → s ≠ "" →
  JS.is_str (JS.get payload "type") "subscription_verification"
  && JS.truthy (JS.get payload "challenge") = false →
  ServerJs.post_podio_push w cfg req (Some s) st
  = (st, Hmac "" (stringify w payload)
         :: attempt w (AVA_TOPIC_URL cfg) payload
         ++ attempt w (DEBUG_WEBHOOK_URL cfg) payload,
     Normal (send 200 "OK"))%list.
Proof.
  intros payload s Hunset Hs Hregular.
  rewrite ServerJs_push_regular by done. fold payload. simpl.
  destruct (String.eqb s "") eqn:E; [by rewrite string_eqb_true in E|].
  assert (default "" (PODIO_PUSH_SECRET cfg) = "") as ->.
  { destruct (PODIO_PUSH_SECRET cfg) as [k|]; [|done].
    simpl in *. by rewrite string_eqb_true in Hunset. }
  fold s. by rewrite (proj2 (string_eqb_true _ _) eq_refl).
Qed.

Lemma unset_secret_is_the_empty_key_witness :
  outcome (ServerJs.post_podio_push Fixture.calm Fixture.cfg_no_secret
             Fixture.item_event (Some "|[object Object]") Fixture.subs1)
  = Normal (send 200 "OK").
Proof.
  exact (f_equal outcome
           (unset_secret_is_the_empty_key Fixture.calm Fixture.cfg_no_secret
              Fixture.item_event Fixture.subs1 eq_refl ltac:(discriminate) eq_refl)).
Defined.

(** ** The interceptors on the subscribe message *)

Lemma tags_twice (e : gmap string JS.value) (x y : JS.value) :
  <["private_pub_timestamp" := x]>
    (<["private_pub_signature" := y]>
       (<["private_pub_timestamp" := x]> (<["private_pub_signature" := y]> e)))
  = <["private_pub_timestamp" := x]> (<["private_pub_signature" := y]> e).
Proof.
  apply map_eq. intros k.
  destruct (decide (k = "private_pub_timestamp")) as [->|Hts];
    [by rewrite !lookup_insert_eq|].
  destruct (decide (k = "private_pub_signature")) as [->|Hsig].
  - rewrite (lookup_insert_ne _ "private_pub_timestamp") by done.
    rewrite lookup_insert_eq.
    rewrite (lookup_insert_ne _ "private_pub_timestamp") by done.
    by rewrite lookup_insert_eq.
  - by repeat rewrite lookup_insert_ne by done.
Qed.



(** X16: both interceptors are idempotent: a message that went through one
    of them, and is handed to it again, as when the client sends it again,
    comes out as it went in. *)
Theorem outgoing_idempotent (ch : string) (sig ts : JS.value) (m : Bayeux.message) :
  ServerJs.outgoing ch sig ts (ServerJs.outgoing ch sig ts m)
  = ServerJs.outgoing ch sig ts m
  ∧ PushService.outgoing ch sig ts (PushService.outgoing ch sig ts m)
    = PushService.outgoing ch sig ts m.
Proof.
  split.
  - unfold ServerJs.outgoing.
    destruct (String.eqb (Bayeux.channel m) "/meta/subscribe") eqn:Hc;
      simpl; rewrite Hc; [|done].
    unfold Bayeux.set_ext. simpl. by rewrite tags_twice.
  - unfold PushService.outgoing.
    destruct (String.eqb (Bayeux.channel m) "/meta/subscribe"
              && bool_decide (Bayeux.subscription m = Some ch)) eqn:Hc;
      simpl; rewrite Hc; [|done].
    unfold Bayeux.set_ext. simpl. by rewrite tags_twice.
Qed.

(** ** The /subscribe stub *)

(** X17: the /subscribe stub of the last webhook-only listener answers a
    complete request with status [ok] and echoes the channel and the expiry,
    but subscribes to nothing: it constructs no client and makes no call. *)
Theorem stub_subscribe_only_acknowledges (p : push) (ch : string) :
  channel p = Some ch → ch ≠ "" →
  JS.truthy (signature p) = true → JS.truthy (timestamp p) = true →
  PushBlob.post_subscribe (Some p) tt
  = (tt, [], Normal (json 200 (JS.Obj [("status", JS.Str "ok");
                                       ("subscribed", JS.Str ch);
                                       ("expires_in", expires_in p)]))).
Proof.
  intros Hch Hne Hsig Hts. unfold PushBlob.post_subscribe.
  rewrite Hch, Hsig, Hts. simpl.
  destruct (String.eqb ch "") eqn:E; [by rewrite string_eqb_true in E|].
  reflexivity.
Qed.

Lemma stub_subscribe_only_acknowledges_witness :
  calls (PushBlob.post_subscribe (Some Fixture.task1) tt) = [].
Proof.
  by rewrite (stub_subscribe_only_acknowledges Fixture.task1 "/task/1" eq_refl
                ltac:(discriminate) eq_refl eq_refl).
Defined.

(** ** Unsubscribe in [src/unnamed/part_000] *)

(** X18: the /unsubscribe route of [src/unnamed/part_000] never answers 500
    for a request that names a channel: whatever cancel and disconnect
    throw, the answer is 200 with [ok] true and a result whose status is
    [unsubscribed] when the channel had an entry and [not_found] when it had
    none, and afterwards the channel has no entry. *)
Theorem unsubscribe_route_never_fails (w : world) (ch : string)
    (st : PushService.state) :
  ch ≠ "" →
  let r := PushService.post_unsubscribe w (Some ch) st in
  outcome r
  = Normal (json 200 (JS.Obj
      [("ok", JS.Bool true);
       ("result", JS.Obj [("status",
                           JS.Str (match PushService.active st !! ch with
                                   | Some _ => "unsubscribed"
                                   | None => "not_found"
                                   end));
                          ("channel", JS.Str ch)])]))
  ∧ PushService.active (final_state r) !! ch = None.
Proof.
  intros Hne r. subst r. unfold PushService.post_unsubscribe. simpl.
  destruct (String.eqb ch "") eqn:E; [by rewrite string_eqb_true in E|].
  unfold try_catch, bind.
  destruct (PushService.active st !! ch) as [e|] eqn:Hin.
  - rewrite (PushService_unsubscribe_found w ch e st) by done.
    unfold outcome, final_state, ret. simpl. split; [done|]. apply lookup_delete_eq.
  - rewrite PushService_unsubscribe_not_found by done.
    unfold outcome, final_state, ret. simpl. by split.
Qed.

Lemma unsubscribe_route_never_fails_witness :
  status <$> outcome_value
    (outcome (PushService.post_unsubscribe Fixture.stormy (Some "/task/1")
                Fixture.active1))
  = Some 200.
Proof.
  destruct (unsubscribe_route_never_fails Fixture.stormy "/task/1" Fixture.active1
              ltac:(discriminate)) as [H _].
  by rewrite H.
Defined.

(** X19: an unsubscribe that arrives while the subscribe for its channel
    still awaits the confirmation is lost: it finds no entry, answers
    [not_found] and makes no call; when the confirmation then comes in time
    the subscribe registers the channel all the same. *)
Theorem unsubscribe_while_pending_is_lost (w1 w2 : world) (cfg : env) (ch : string)
    (sig ts : JS.value) (st : PushService.state) (t : N) :
  let h := PushService.clients st in
  PushService.active st !! ch = None →
  confirmed_after w2 h = Some t → (t < PushService.confirmation_timeout)%N →
  let a := PushService.subscribe_start cfg ch sig ts st in
  let b := PushService.unsubscribeFromChannel w1 ch (final_state a) in
  let c := PushService.subscribe_resume w2 ch h (final_state b) in
  outcome a = Normal (inr h)
  ∧ b = (final_state a, [], Normal (JS.Obj [("status", JS.Str "not_found");
                                            ("channel", JS.Str ch)]))
  ∧ outcome c = Normal (JS.Obj [("status", JS.Str "subscribed");
                                ("channel", JS.Str ch)])
  ∧ PushService.active (final_state c) !! ch = Some {| PushService.client := h |}.
Proof.
  intros h Hfresh Ht Hlt a b c. subst c b a.
  rewrite PushService_subscribe_start_fresh by done. rewrite !final_state_of.
  rewrite PushService_unsubscribe_not_found by done. rewrite !final_state_of.
  unfold PushService.subscribe_resume.
  rewrite (await_confirmation_in_time w2 h t Ht Hlt). run. simpl.
  repeat split. apply lookup_insert_eq.
Qed.

Lemma unsubscribe_while_pending_is_lost_witness :
  let a := PushService.subscribe_start Fixture.cfg "/task/2" (JS.Str "abc")
             (JS.Num 1700000000) Fixture.active1 in
  let b := PushService.unsubscribeFromChannel Fixture.stormy "/task/2" (final_state a) in
  let c := PushService.subscribe_resume Fixture.calm "/task/2" 1 (final_state b) in
  PushService.active (final_state c) !! "/task/2" = Some {| PushService.client := 1 |}.
Proof.
  apply (unsubscribe_while_pending_is_lost Fixture.stormy Fixture.calm Fixture.cfg
           "/task/2" (JS.Str "abc") (JS.Num 1700000000) Fixture.active1 120%N
           eq_refl eq_refl eq_refl).
Defined.
